(** * youtube-summary: transcript resolver and summarization dispatcher

    A shallow embedding of [youtube_summary/transcript.py],
    [youtube_summary/summarizer.py] and the two commands of
    [youtube_summary/cli.py], and the properties of the three modules.

    Conventions of the embedding.
    - A Python [str] is a [string] whose characters are the code points
      U+0000..U+00FF; [lower] and [strip] are Python's on that range.
    - A Python [int] is a [Z]; [Optional[T]] is [option T] with [None] for
      Python's [None]. The conversion of an [int] to decimal, which the
      interpreter refuses beyond its digit limit, is a computation that may
      raise ([format_int]).
    - A Python [float] is only stored and passed on, never computed with; it
      is carried as a [Q].
    - Raising is the [Raise] outcome; the process environment, the optional
      packages and the external services are fields of a [World] that the
      code reads; every call that leaves the module is logged as an [event],
      in program order. *)

From Stdlib Require Import ZArith QArith DecimalString DecimalPos DecimalFacts
  Ascii.
From stdpp Require Import gmap strings list.

(** ** Python strings *)

Module Str.

(** [len(s) == 0], the falsiness of a string. *)
Definition is_empty (s : string) : bool :=
  match s with "" => true | String _ _ => false end.

(** [s.startswith(p)], returning what follows the prefix. *)
Fixpoint strip_prefix (p s : string) : option string :=
  match p, s with
  | "", _ => Some s
  | String a p', String b s' =>
      if decide (a = b) then strip_prefix p' s' else None
  | String _ _, "" => None
  end.

(** [needle in s]. *)
Fixpoint contains (needle s : string) : bool :=
  match strip_prefix needle s with
  | Some _ => true
  | None => match s with
            | "" => false
            | String _ s' => contains needle s'
            end
  end.

(** [sep.join(l)]. *)
Fixpoint join (sep : string) (l : list string) : string :=
  match l with
  | [] => ""
  | [x] => x
  | x :: l' => x +:+ sep +:+ join sep l'
  end.

(** [c.isspace()] on U+0000..U+00FF: the characters [str.strip()]
    removes. *)
Definition is_space (c : ascii) : bool :=
  let n := N_of_ascii c in
  ((9 <=? n) && (n <=? 13) || (28 <=? n) && (n <=? 32)
   || (n =? 133) || (n =? 160))%N.

Fixpoint lstrip (s : string) : string :=
  match s with
  | "" => ""
  | String c s' => if is_space c then lstrip s' else s
  end.

(** [s.rstrip()]: a character stays when it is not a space or when
    something stays after it. *)
Fixpoint rstrip (s : string) : string :=
  match s with
  | "" => ""
  | String c s' =>
      let r := rstrip s' in
      if is_space c && is_empty r then "" else String c r
  end.

(** [s.strip()]. *)
Definition strip (s : string) : string := rstrip (lstrip s).

(** [c.lower()] on U+0000..U+00FF: A-Z, and U+00C0..U+00DE but for the
    multiplication sign U+00D7. *)
Definition lower_char (c : ascii) : ascii :=
  let n := N_of_ascii c in
  if ((65 <=? n) && (n <=? 90)
      || (192 <=? n) && (n <=? 222) && negb (n =? 215))%N
  then ascii_of_N (n + 32) else c.

(** [s.lower()]. *)
Fixpoint lower (s : string) : string :=
  match s with
  | "" => ""
  | String c s' => String (lower_char c) (lower s')
  end.

(** The decimal digits of an [int], after a [-] when it is negative:
    what [str(n)] gives where the interpreter makes the conversion (see
    [format_int] for where it does not). *)
Definition of_int (n : Z) : string := NilZero.string_of_int (Z.to_int n).

(** The line feed, Python's ["\n"]. *)
Definition nl : string := String "010"%char "".

End Str.

(** ** Exceptions and outcomes *)

(** The exception classes the two modules raise or let through.
    [KeyboardInterrupt] and [SystemExit] derive from [BaseException] only:
    [except Exception] does not catch them. *)
Inductive exc_class : Type :=
| ValueError
| ImportError
| IndexError
| AttributeError
| OtherException (name : string)
| KeyboardInterrupt
| SystemExit.

(** [isinstance(e, Exception)]. *)
Definition is_Exception (c : exc_class) : bool :=
  match c with
  | KeyboardInterrupt | SystemExit => false
  | _ => true
  end.

(** An exception object: its class and [str(e)]. *)
Record exception : Type := Exc { exc_type : exc_class; exc_str : string }.

Inductive outcome (A : Type) : Type :=
| Return (a : A)
| Raise (e : exception).
Arguments Return {A} a.
Arguments Raise {A} e.

(** The error taxonomy of the specification, as the code raises it: all
    four are [ValueError]s told apart by their message. *)
Definition InvalidReference (url : string) : exception :=
  Exc ValueError ("Could not extract video ID from URL: " +:+ url).
Definition TranscriptUnavailable (cause : string) : exception :=
  Exc ValueError ("Could not retrieve transcript: " +:+ cause).
Definition UnknownProvider (name : string) : exception :=
  Exc ValueError ("Unknown provider: " +:+ name).
Definition MissingCredential (vendor variable : string) : exception :=
  Exc ValueError (vendor +:+ " API key is required. Set " +:+ variable
                  +:+ " environment variable or pass explicitly.").

(** ** The external collaborators *)

(** One caption unit, as the captioning service returns it. *)
Record TranscriptSegment : Type :=
  { text : string; start : Q; duration : Q }.

(** [ollama.generate(model=, prompt=, options={temperature, num_predict})]. *)
Record OllamaRequest : Type :=
  { og_model : string; og_prompt : string;
    og_temperature : Q; og_num_predict : Z }.

(** The response mapping of [ollama.generate], read at ['response']. *)
Record OllamaResponse : Type := { response : string }.

(** One [{"role": ..., "content": ...}] entry. *)
Record Message : Type := { role : string; content : string }.

(** [client.chat.completions.create(model=, messages=, temperature=,
    max_tokens=)]. *)
Record ChatRequest : Type :=
  { cc_model : string; cc_messages : list Message;
    cc_temperature : Q; cc_max_tokens : Z }.

(** [response.choices]: each choice by its [message.content], which the
    service may leave [None]. *)
Record ChatResponse : Type := { choices : list (option string) }.

(** [client.messages.create(model=, system=, max_tokens=, temperature=,
    messages=)]. *)
Record MessagesRequest : Type :=
  { mc_model : string; mc_system : string; mc_max_tokens : Z;
    mc_temperature : Q; mc_messages : list Message }.

(** A content block of a messages response; only a text block has a
    [.text], a block of another class is kept by the name of its class. *)
Inductive ContentBlock : Type :=
| TextBlock (block_text : string)
| OtherBlock (class_name : string).

Record MessagesResponse : Type := { blocks : list ContentBlock }.

(** The client handle a hosted variant owns: the SDK it came from and the
    credential it was built with. *)
Record Client : Type := { sdk : string; credential : string }.

(** What the code reads and calls outside itself. *)
Record World : Type :=
  { environ : gmap string string;
    importable : string → bool;
    YouTubeTranscriptApi_get_transcript :
      string → list string → outcome (list TranscriptSegment);
    ollama_generate : OllamaRequest → outcome OllamaResponse;
    chat_completions_create : Client → ChatRequest → outcome ChatResponse;
    messages_create : Client → MessagesRequest → outcome MessagesResponse;
    int_max_str_digits : Z }.

(** The calls that leave the module, as they are logged. *)
Inductive event : Type :=
| Getenv (name : string)
| Import (package : string)
| NewClient (c : Client)
| FetchCaptions (video_id : string) (languages : list string)
| OllamaGenerate (req : OllamaRequest)
| ChatCompletionsCreate (c : Client) (req : ChatRequest)
| MessagesCreate (c : Client) (req : MessagesRequest).

(** ** Computations: read the world, log the calls, return or raise *)

Definition M (A : Type) : Type := World → list event * outcome A.

Definition ret {A} (a : A) : M A := λ _, ([], Return a).

Definition raise {A} (e : exception) : M A := λ _, ([], Raise e).

Definition lift {A} (o : outcome A) : M A := λ _, ([], o).

Definition bind {A B} (m : M A) (k : A → M B) : M B :=
  λ w, match m w with
       | (t, Return a) => let '(t', r) := k a w in (t ++ t', r)
       | (t, Raise e) => (t, Raise e)
       end.

Notation "'let!' x ':=' m 'in' k" := (bind m (λ x, k))
  (at level 10, x name, m at level 100, k at level 200).

(** A call to a collaborator: logged, answered by the world. *)
Definition call {A} (ev : event) (f : World → outcome A) : M A :=
  λ w, ([ev], f w).

(** [try: m  except Exception as e: h e]. *)
Definition try_except_Exception {A} (m : M A) (h : exception → M A) : M A :=
  λ w, match m w with
       | (t, Raise e) =>
           if is_Exception (exc_type e)
           then let '(t', r) := h e w in (t ++ t', r)
           else (t, Raise e)
       | (t, Return a) => (t, Return a)
       end.

(** [os.getenv(name)]. *)
Definition getenv (name : string) : M (option string) :=
  call (Getenv name) (λ w, Return (environ w !! name)).

(** [os.getenv(name, default)]. *)
Definition getenv_default (name default : string) : M string :=
  call (Getenv name) (λ w, Return (from_option id default (environ w !! name))).

(** ** Conversion of an [int] to decimal

    CPython refuses to convert an [int] to a decimal string when the
    string would have more than 640 characters and the number has more
    digits than [sys.get_int_max_str_digits()]; a limit of [0] is no
    limit. The limit is a setting of the interpreter the code runs on, the
    field [int_max_str_digits] of the world: 4300 unless it was changed,
    [0] on an interpreter that has none. *)

Definition int_str_threshold : Z := 640.

(** The test of the conversion: [strlen] counts the sign, the limit is on
    the digits. *)
Definition exceeds_limit (limit n : Z) : bool :=
  let strlen := Z.of_nat (String.length (Str.of_int n)) in
  let strlen_nosign := if (n <? 0)%Z then (strlen - 1)%Z else strlen in
  ((int_str_threshold <? strlen) && (0 <? limit)
   && (limit <? strlen_nosign))%Z.

Definition int_str_error (limit : Z) : exception :=
  Exc ValueError
      ("Exceeds the limit (" +:+ Str.of_int limit
       +:+ " digits) for integer string conversion; use sys.set_int_max_str_digits() to increase the limit").

(** [str(n)], and [{n}] in an f-string. *)
Definition format_int (n : Z) : M string :=
  λ w, ([], if exceeds_limit (int_max_str_digits w) n
            then Raise (int_str_error (int_max_str_digits w))
            else Return (Str.of_int n)).

(** ** transcript.py *)

Module Transcript.

(** *** The two URL patterns

    Both patterns of [extract_video_id] have one form: an alternation of
    literal markers followed by the capture group [([^&\n?#]+)]. A pattern
    is kept as the list of its markers, in the order of the
    alternation. *)

(** The characters the capture group's class excludes. *)
Definition is_delim (c : ascii) : bool :=
  match c with
  | "&" | "010" | "?" | "#" => true
  | _ => false
  end%char.

(** [[^&\n?#]*], greedy: the longest run of admitted characters, and
    what follows it. *)
Fixpoint span_group (s : string) : string * string :=
  match s with
  | "" => ("", "")
  | String c s' =>
      if is_delim c then ("", s)
      else let '(g, r) := span_group s' in (String c g, r)
  end.

(** The match of [(?:m1|m2|...)([^&\n?#]+)] anchored at the head of
    [s]: the alternatives are tried in order, and one whose marker is
    there but with no admitted character after it is given up for the
    next. The result is group 1. *)
Fixpoint match_here (markers : list string) (s : string) : option string :=
  match markers with
  | [] => None
  | m :: markers' =>
      match Str.strip_prefix m s with
      | Some r =>
          if Str.is_empty (span_group r).1 then match_here markers' s
          else Some (span_group r).1
      | None => match_here markers' s
      end
  end.

(** [re.search(pattern, s)] then [.group(1)]: the match at the leftmost
    position that has one; the last position tried is the end of [s]. *)
Fixpoint re_search (markers : list string) (s : string) : option string :=
  match match_here markers s with
  | Some g => Some g
  | None => match s with
            | "" => None
            | String _ s' => re_search markers s'
            end
  end.

Definition patterns : list (list string) :=
  [ [ "youtube.com/watch?v="; "youtu.be/"; "youtube.com/embed/";
      "youtube.com/v/"; "youtube.com/?v=" ];
    [ "youtube.com/shorts/" ] ].

(** The loop over the patterns: the first pattern, in list order, that
    matches anywhere decides. *)
Fixpoint first_match (ps : list (list string)) (url : string)
  : option string :=
  match ps with
  | [] => None
  | p :: ps' =>
      match re_search p url with
      | Some g => Some g
      | None => first_match ps' url
      end
  end.

Definition extract_video_id (url : string) : outcome string :=
  match first_match patterns url with
  | Some g => Return g
  | None => Raise (Exc ValueError
                     ("Could not extract video ID from URL: " +:+ url))
  end.

(** [languages] defaults to [['en']]. *)
Definition default_languages : list string := ["en"].

Definition get_transcript (video_id_or_url : string)
    (languages : list string) : M (list TranscriptSegment) :=
  let! video_id :=
    (if Str.contains "youtube.com" video_id_or_url
        || Str.contains "youtu.be" video_id_or_url
     then lift (extract_video_id video_id_or_url)
     else ret video_id_or_url) in
  try_except_Exception
    (call (FetchCaptions video_id languages)
          (λ w, YouTubeTranscriptApi_get_transcript w video_id languages))
    (λ e, raise (Exc ValueError
                   ("Could not retrieve transcript: " +:+ exc_str e))).

Definition get_transcript_text (video_id_or_url : string)
    (languages : list string) : M string :=
  let! transcript_segments := get_transcript video_id_or_url languages in
  ret (Str.join " " (map text transcript_segments)).

End Transcript.

(** ** summarizer.py *)

Module Summarizer.

Import Str.

(** The truth value of an [Optional[str]]: [None] and [""] are false. *)
Definition truthy (o : option string) : bool :=
  match o with
  | Some s => negb (is_empty s)
  | None => false
  end.

(** [a or b] where [b] is a string: [b] is evaluated only when [a] is
    false. *)
Definition or_str (a : option string) (b : M string) : M string :=
  match a with
  | Some s => if is_empty s then b else ret s
  | None => b
  end.

(** [a or b] where [b] may be [None]. *)
Definition or_opt (a : option string) (b : M (option string))
  : M (option string) :=
  if truthy a then ret a else b.

(** The three variants; a hosted one owns its client. *)
Inductive LLMProvider : Type :=
| OllamaProvider (model_name : string)
| OpenAIProvider (model_name api_key : string) (client : Client)
| AnthropicProvider (model_name api_key : string) (client : Client).

(** *** Constructors *)

Definition OllamaProvider_init (model_name : string) : M LLMProvider :=
  ret (OllamaProvider model_name).

(** The deferred import of a hosted SDK and the construction of its
    client; a missing package is re-raised under the module's own
    message. *)
Definition import_client (package message key : string) : M Client :=
  let! found := call (Import package) (λ w, Return (importable w package)) in
  if found : bool
  then let c := {| sdk := package; credential := key |} in
       let! _ := call (NewClient c) (λ _, Return tt) in
       ret c
  else raise (Exc ImportError message).

Definition OpenAIProvider_init (model_name : string)
    (api_key : option string) : M LLMProvider :=
  let! key := or_opt api_key (getenv "OPENAI_API_KEY") in
  match key with
  | Some k =>
      if is_empty k
      then raise (Exc ValueError "OpenAI API key is required. Set OPENAI_API_KEY environment variable or pass explicitly.")
      else
        let! client :=
          import_client "openai"
            "OpenAI package is required for OpenAIProvider. Install with 'poetry add openai'."
            k in
        ret (OpenAIProvider model_name k client)
  | None =>
      raise (Exc ValueError "OpenAI API key is required. Set OPENAI_API_KEY environment variable or pass explicitly.")
  end.

Definition AnthropicProvider_init (model_name : string)
    (api_key : option string) : M LLMProvider :=
  let! key := or_opt api_key (getenv "ANTHROPIC_API_KEY") in
  match key with
  | Some k =>
      if is_empty k
      then raise (Exc ValueError "Anthropic API key is required. Set ANTHROPIC_API_KEY environment variable or pass explicitly.")
      else
        let! client :=
          import_client "anthropic"
            "Anthropic package is required for AnthropicProvider. Install with 'poetry add anthropic'."
            k in
        ret (AnthropicProvider model_name k client)
  | None =>
      raise (Exc ValueError "Anthropic API key is required. Set ANTHROPIC_API_KEY environment variable or pass explicitly.")
  end.

(** *** Prompts *)

(** The f-string of a length clause converts [max_length] to decimal. It
    is reached under [if max_length:], which [None] and [0] both fail:
    for them nothing is converted; for another [max_length] the
    conversion is made, or refused with [ValueError], before the request
    is built. *)
Definition format_clause (max_length : option Z) : M unit :=
  match max_length with
  | Some n =>
      if (n =? 0)%Z then ret tt
      else let! _ := format_int n in ret tt
  | None => ret tt
  end.

(** The local variant's prompt: the template around the transcript, then
    the length clause under [if max_length:], with the digits
    [format_int] returned. *)
Definition ollama_prompt (text : string) (max_length : option Z) : string :=
  let prompt :=
    "Please provide a concise summary of the following transcript." +:+ nl
    +:+ "Focus on the main points and key insights." +:+ nl
    +:+ nl
    +:+ "TRANSCRIPT:" +:+ nl
    +:+ text +:+ nl
    +:+ nl
    +:+ "SUMMARY:" in
  match max_length with
  | Some n =>
      if (n =? 0)%Z then prompt
      else prompt +:+ nl +:+ "(Please keep the summary under "
           +:+ of_int n +:+ " words)"
  | None => prompt
  end.

Definition openai_system_message : string :=
  "You are a helpful assistant that summarizes transcripts concisely.".

Definition openai_user_message (text : string) (max_length : option Z)
  : string :=
  let user_message :=
    "Please summarize the following transcript:" +:+ nl +:+ nl +:+ text in
  match max_length with
  | Some n =>
      if (n =? 0)%Z then user_message
      else user_message +:+ nl +:+ nl +:+ "Keep the summary under "
           +:+ of_int n +:+ " words."
  | None => user_message
  end.

Definition anthropic_system_message : string :=
  "Summarize the provided transcript concisely, focusing on key points and insights.".

Definition anthropic_user_message (text : string) (max_length : option Z)
  : string :=
  let user_message :=
    "Here is the transcript to summarize:" +:+ nl +:+ nl +:+ text in
  match max_length with
  | Some n =>
      if (n =? 0)%Z then user_message
      else user_message +:+ nl +:+ nl +:+ "Keep the summary under "
           +:+ of_int n +:+ " words."
  | None => user_message
  end.

(** *** Requests *)

Definition ollama_request (model_name text : string)
    (max_length : option Z) : OllamaRequest :=
  {| og_model := model_name;
     og_prompt := ollama_prompt text max_length;
     og_temperature := 0.3; og_num_predict := 1000 |}.

Definition openai_request (model_name text : string)
    (max_length : option Z) : ChatRequest :=
  {| cc_model := model_name;
     cc_messages :=
       [ {| role := "system"; content := openai_system_message |};
         {| role := "user";
            content := openai_user_message text max_length |} ];
     cc_temperature := 0.3; cc_max_tokens := 1000 |}.

Definition anthropic_request (model_name text : string)
    (max_length : option Z) : MessagesRequest :=
  {| mc_model := model_name;
     mc_system := anthropic_system_message;
     mc_max_tokens := 1000; mc_temperature := 0.3;
     mc_messages :=
       [ {| role := "user";
            content := anthropic_user_message text max_length |} ] |}.

(** *** summarize *)

Definition OllamaProvider_summarize (model_name text : string)
    (max_length : option Z) : M string :=
  let! _ := format_clause max_length in
  let req := ollama_request model_name text max_length in
  let! r := call (OllamaGenerate req) (λ w, ollama_generate w req) in
  ret (strip (response r)).

(** [response.choices[0].message.content.strip()]. *)
Definition OpenAIProvider_summarize (model_name : string) (client : Client)
    (text : string) (max_length : option Z) : M string :=
  let! _ := format_clause max_length in
  let req := openai_request model_name text max_length in
  let! r := call (ChatCompletionsCreate client req)
                 (λ w, chat_completions_create w client req) in
  match choices r with
  | [] => raise (Exc IndexError "list index out of range")
  | None :: _ =>
      raise (Exc AttributeError
               "'NoneType' object has no attribute 'strip'")
  | Some c :: _ => ret (strip c)
  end.

(** [response.content[0].text.strip()]. *)
Definition AnthropicProvider_summarize (model_name : string)
    (client : Client) (text : string) (max_length : option Z) : M string :=
  let! _ := format_clause max_length in
  let req := anthropic_request model_name text max_length in
  let! r := call (MessagesCreate client req)
                 (λ w, messages_create w client req) in
  match blocks r with
  | [] => raise (Exc IndexError "list index out of range")
  | OtherBlock cls :: _ =>
      raise (Exc AttributeError
               ("'" +:+ cls +:+ "' object has no attribute 'text'"))
  | TextBlock t :: _ => ret (strip t)
  end.

(** The method call [provider.summarize(text, max_length)]. *)
Definition summarize (provider : LLMProvider) (text : string)
    (max_length : option Z) : M string :=
  match provider with
  | OllamaProvider model_name =>
      OllamaProvider_summarize model_name text max_length
  | OpenAIProvider model_name _ client =>
      OpenAIProvider_summarize model_name client text max_length
  | AnthropicProvider model_name _ client =>
      AnthropicProvider_summarize model_name client text max_length
  end.

(** *** The factory *)

(** The first statement of [get_provider]:
    [provider_name or os.getenv("SUMMARY_PROVIDER", "ollama").lower()].
    The method call binds tighter than [or]: [.lower()] is applied to what
    [os.getenv] returns, not to the explicit argument. *)
Definition resolve_provider_name (provider_name : option string)
  : M string :=
  or_str provider_name
    (let! v := getenv_default "SUMMARY_PROVIDER" "ollama" in
     ret (lower v)).

Definition get_provider (provider_name : option string)
    (kwargs : gmap string string) : M LLMProvider :=
  let! provider_name := resolve_provider_name provider_name in
  if decide (provider_name = "ollama") then
    let! model_name :=
      or_str (kwargs !! "model_name")
             (getenv_default "OLLAMA_MODEL" "llama3.2") in
    OllamaProvider_init model_name
  else if decide (provider_name = "openai") then
    let! model_name :=
      or_str (kwargs !! "model_name")
             (getenv_default "OPENAI_MODEL" "gpt-3.5-turbo") in
    let! api_key :=
      or_opt (kwargs !! "api_key") (getenv "OPENAI_API_KEY") in
    OpenAIProvider_init model_name api_key
  else if decide (provider_name = "anthropic") then
    let! model_name :=
      or_str (kwargs !! "model_name")
             (getenv_default "ANTHROPIC_MODEL" "claude-3-haiku-20240307") in
    let! api_key :=
      or_opt (kwargs !! "api_key") (getenv "ANTHROPIC_API_KEY") in
    AnthropicProvider_init model_name api_key
  else
    raise (Exc ValueError ("Unknown provider: " +:+ provider_name)).

Definition summarize_text (text : string) (provider_name : option string)
    (max_length : option Z) (kwargs : gmap string string) : M string :=
  let! provider := get_provider provider_name kwargs in
  summarize provider text max_length.

End Summarizer.

(** ** The specification's words, stated on their own

    These definitions follow the specification's sentences, not the code:
    the properties below compare the code with them. One of them,
    [searched], puts the order of the code's two searches in the same
    words, beside [identifier], which is the specification's. *)

Module Spec.

(** [needle] occurs somewhere in [s]. *)
Definition occurs (needle s : string) : Prop :=
  ∃ a b, s = a +:+ needle +:+ b.

(** ``a recognizable video-hosting domain marker''. *)
Definition has_domain_marker (s : string) : Prop :=
  occurs "youtube.com" s ∨ occurs "youtu.be" s.

(** ``the next [&], newline, [?], or [#]''. *)
Definition delimiter (c : ascii) : Prop :=
  (c = "&" ∨ c = "010" ∨ c = "?" ∨ c = "#")%char.

Definition delimiter_free (g : string) : Prop :=
  ∀ a c b, g = a +:+ String c b → ¬ delimiter c.

(** What follows an identifier: nothing, or a delimiter first. *)
Definition stops (rest : string) : Prop :=
  rest = "" ∨ ∃ c r, rest = String c r ∧ delimiter c.

(** [s] begins with the marker [m], then the identifier [g]: one
    character at least, none of them a delimiter, up to the next
    delimiter or the end. *)
Definition shape (m s g : string) : Prop :=
  ∃ rest, s = m +:+ g +:+ rest ∧ g ≠ "" ∧ delimiter_free g ∧ stops rest.

(** The known URL shapes: [watch?v=], the short-link host, [/embed/],
    [/v/] and the bare [?v=] of the first pattern; [/shorts/] of the
    second. *)
Definition watch_like : list string :=
  [ "youtube.com/watch?v="; "youtu.be/"; "youtube.com/embed/";
    "youtube.com/v/"; "youtube.com/?v=" ].
Definition shorts : list string := [ "youtube.com/shorts/" ].

(** One of [markers] has its shape at offset [length pre] of [url], with
    identifier [g]. *)
Definition shape_at (markers : list string) (url pre g : string) : Prop :=
  ∃ suf m, url = pre +:+ suf ∧ m ∈ markers ∧ shape m suf g.

(** ``the first matching capture group'': [g] is the identifier of the
    leftmost place of [url] where one of [markers] has its shape. *)
Definition first_shape (markers : list string) (url g : string) : Prop :=
  ∃ pre, shape_at markers url pre g
         ∧ ∀ pre' g', String.length pre' < String.length pre →
                      ¬ shape_at markers url pre' g'.

(** None of [markers] has its shape anywhere in [url]. *)
Definition shapeless (markers : list string) (url : string) : Prop :=
  ∀ pre g, ¬ shape_at markers url pre g.

(** ``URL of a supported shape ([watch?v=], short-link host [youtu.be/],
    [/embed/], [/v/], [/shorts/])'': the five shapes the specification
    lists. *)
Definition supported : list string :=
  [ "youtube.com/watch?v="; "youtu.be/"; "youtube.com/embed/";
    "youtube.com/v/"; "youtube.com/shorts/" ].

(** ``returns exactly the identifier: the first matching capture group'':
    the identifier of a URL is the one at the leftmost place where a
    supported shape stands, whichever shape it is; what follows it, query
    parameters too, has no part in it. *)
Definition identifier (url g : string) : Prop :=
  first_shape supported url g.

(** The order the code searches in, in the same words, to say where it
    departs from [identifier]: the leftmost watch-like shape anywhere in
    the URL, and the leftmost shorts shape only when the URL has no
    watch-like one. *)
Definition searched (url g : string) : Prop :=
  first_shape watch_like url g
  ∨ (shapeless watch_like url ∧ first_shape shorts url g).

(** ``matching none of the patterns''. *)
Definition no_shape (url : string) : Prop :=
  shapeless watch_like url ∧ shapeless shorts url.

(** ``joins all segment texts with a single space separator'': the first
    text, then a space and the next text for each one that follows. *)
Definition joined (texts : list string) : string :=
  match texts with
  | [] => ""
  | x :: rest => foldl (λ acc y, acc +:+ " " +:+ y) x rest
  end.

(** The total length of the texts. *)
Definition total_length (texts : list string) : nat :=
  sum_list (map String.length texts).

(** ``leading/trailing whitespace removed'': [s] is [r] without a run of
    white space at each end, and has none left at either end. *)
Definition white (s : string) : Prop :=
  ∀ a c b, s = a +:+ String c b → Str.is_space c = true.

Definition trimmed (r s : string) : Prop :=
  (∃ l t, r = l +:+ s +:+ t ∧ white l ∧ white t)
  ∧ (∀ c s', s = String c s' → Str.is_space c = false)
  ∧ (∀ s' c, s = s' +:+ String c "" → Str.is_space c = false).

(** The closed set of selectors. *)
Definition known_providers : list string := ["ollama"; "openai"; "anthropic"].

(** The words every length-constraint clause has. *)
Definition length_clause : string := "the summary under".

(** The prompt or user message a logged backend call carries. *)
Definition prompt_of (ev : event) : option string :=
  match ev with
  | OllamaGenerate req => Some (og_prompt req)
  | ChatCompletionsCreate _ req =>
      content <$> last (filter (λ m, role m = "user") (cc_messages req))
  | MessagesCreate _ req =>
      content <$> last (filter (λ m, role m = "user") (mc_messages req))
  | _ => None
  end.

(** Whether a logged call constructs a backend client or reaches a
    backend. *)
Definition is_backend_event (ev : event) : bool :=
  match ev with
  | Getenv _ => false
  | _ => true
  end.

End Spec.

(** ** Sample worlds

    Concrete collaborators to run the code against: a captioning service
    with one answer for every video, and backends that generate one
    text. *)

Module Demo.

Definition segments : list TranscriptSegment :=
  [ {| text := "Hello"; start := 0; duration := 1 |};
    {| text := "world"; start := 1; duration := 1 |} ].

Definition disabled : exception :=
  Exc (OtherException "TranscriptsDisabled")
      "Subtitles are disabled for this video".

Definition world (env : gmap string string) (sdks : bool)
    (captions : outcome (list TranscriptSegment)) (generated : string)
  : World :=
  {| environ := env;
     importable := λ _, sdks;
     YouTubeTranscriptApi_get_transcript := λ _ _, captions;
     ollama_generate := λ _, Return {| response := generated |};
     chat_completions_create :=
       λ _ _, Return {| choices := [Some generated] |};
     messages_create :=
       λ _ _, Return {| blocks := [TextBlock generated] |};
     int_max_str_digits := 4300 |}.

End Demo.

(** ** Readings of a run

    What a logged call is, and what a provider holds: the words the
    further properties of the two modules are stated with. *)

Module Run.

Import Str Summarizer.

Definition is_getenv (ev : event) : bool :=
  match ev with
  | Getenv _ => true
  | _ => false
  end.

(** The import of a hosted SDK or the construction of its client. *)
Definition is_sdk_use (ev : event) : bool :=
  match ev with
  | Import _ | NewClient _ => true
  | _ => false
  end.

(** A call to a generation backend. *)
Definition is_backend_call (ev : event) : bool :=
  match ev with
  | OllamaGenerate _ | ChatCompletionsCreate _ _ | MessagesCreate _ _ => true
  | _ => false
  end.

(** The model, the temperature and the generation cap a backend call
    carries. *)
Definition request_settings (ev : event) : option (string * Q * Z) :=
  match ev with
  | OllamaGenerate req =>
      Some (og_model req, og_temperature req, og_num_predict req)
  | ChatCompletionsCreate _ req =>
      Some (cc_model req, cc_temperature req, cc_max_tokens req)
  | MessagesCreate _ req =>
      Some (mc_model req, mc_temperature req, mc_max_tokens req)
  | _ => None
  end.

(** The world's answer to a backend call is the exception [e]. *)
Definition backend_raises (w : World) (ev : event) (e : exception) : Prop :=
  match ev with
  | OllamaGenerate req => ollama_generate w req = Raise e
  | ChatCompletionsCreate c req => chat_completions_create w c req = Raise e
  | MessagesCreate c req => messages_create w c req = Raise e
  | _ => False
  end.

(** [self.model_name]. *)
Definition model_of (p : LLMProvider) : string :=
  match p with
  | OllamaProvider m | OpenAIProvider m _ _ | AnthropicProvider m _ _ => m
  end.

(** The selector of each variant, and the environment variable and the
    literal its model name falls back to. *)
Definition selector_of (p : LLMProvider) : string :=
  match p with
  | OllamaProvider _ => "ollama"
  | OpenAIProvider _ _ _ => "openai"
  | AnthropicProvider _ _ _ => "anthropic"
  end.

Definition model_variable (p : LLMProvider) : string :=
  match p with
  | OllamaProvider _ => "OLLAMA_MODEL"
  | OpenAIProvider _ _ _ => "OPENAI_MODEL"
  | AnthropicProvider _ _ _ => "ANTHROPIC_MODEL"
  end.

Definition model_literal (p : LLMProvider) : string :=
  match p with
  | OllamaProvider _ => "llama3.2"
  | OpenAIProvider _ _ _ => "gpt-3.5-turbo"
  | AnthropicProvider _ _ _ => "claude-3-haiku-20240307"
  end.

(** Keyword argument, else the variable when it is set, else the
    literal. *)
Definition chosen_model (kwargs : gmap string string) (w : World)
    (variable literal : string) : string :=
  match kwargs !! "model_name" with
  | Some m =>
      if is_empty m then default literal (environ w !! variable) else m
  | None => default literal (environ w !! variable)
  end.

(** Keyword argument, else the variable. *)
Definition chosen_key (kwargs : gmap string string) (w : World)
    (variable : string) : option string :=
  match kwargs !! "api_key" with
  | Some k => if is_empty k then environ w !! variable else Some k
  | None => environ w !! variable
  end.

(** The interpreter refuses the conversion of [max_length] that the
    length clause needs. *)
Definition refused (w : World) (max_length : option Z) : bool :=
  match max_length with
  | Some n => negb (n =? 0)%Z && exceeds_limit (int_max_str_digits w) n
  | None => false
  end.

(** The world with another digit limit: [sys.set_int_max_str_digits]. *)
Definition with_limit (limit : Z) (w : World) : World :=
  {| environ := environ w;
     importable := importable w;
     YouTubeTranscriptApi_get_transcript :=
       YouTubeTranscriptApi_get_transcript w;
     ollama_generate := ollama_generate w;
     chat_completions_create := chat_completions_create w;
     messages_create := messages_create w;
     int_max_str_digits := limit |}.

(** The world with another environment. *)
Definition with_environ (env : gmap string string) (w : World) : World :=
  {| environ := env;
     importable := importable w;
     YouTubeTranscriptApi_get_transcript :=
       YouTubeTranscriptApi_get_transcript w;
     ollama_generate := ollama_generate w;
     chat_completions_create := chat_completions_create w;
     messages_create := messages_create w;
     int_max_str_digits := int_max_str_digits w |}.

(** [os.environ[name] = value]. *)
Definition setenv (name value : string) (w : World) : World :=
  with_environ (<[name := value]> (environ w)) w.

End Run.

(** ** cli.py

    The two commands. Beside the calls of the two modules they load the
    [.env] file into the environment, print and write a file: a command
    runs on a [Host], which says what loading does to the environment and
    how a write ends, and it passes the world on, since loading changes
    the environment the later calls read.

    The commands are the two Python functions, with arguments of their
    annotated types: [str], [Optional[str]] and [Optional[int]]. [main]
    hands them to [fire.Fire], which builds the arguments from the command
    line by its own rules (a value with a comma comes as a tuple, not as a
    [str]); that library is not part of the embedding. *)

Module Cli.

Import Str Run.

(** [s.split(sep)] for a separator of one character: the pieces between
    the separators, empty ones too. *)
Fixpoint split (sep : ascii) (s : string) : list string :=
  match s with
  | "" => [""]
  | String c s' =>
      if decide (c = sep) then "" :: split sep s'
      else match split sep s' with
           | piece :: pieces => String c piece :: pieces
           | [] => [String c ""]
           end
  end.

Inductive cli_event : Type :=
| Core (ev : event)
| LoadDotenv
| Print (line : string)
| WriteFile (path content : string).

Record Host : Type :=
  { load_dotenv : gmap string string → gmap string string;
    write_file : string → string → outcome unit }.

Definition C (A : Type) : Type :=
  Host → World → list cli_event * World * outcome A.

Definition cret {A} (a : A) : C A := λ _ w, ([], w, Return a).

Definition cbind {A B} (m : C A) (k : A → C B) : C B :=
  λ h w, match m h w with
         | (t, w', Return a) =>
             let '(t', w'', r) := k a h w' in (t ++ t', w'', r)
         | (t, w', Raise e) => (t, w', Raise e)
         end.

Notation "'do!' x ':=' m 'in' k" := (cbind m (λ x, k))
  (at level 10, x name, m at level 100, k at level 200).

(** A computation of the two modules, in the current world. *)
Definition core {A} (m : M A) : C A :=
  λ _ w, let '(t, r) := m w in (Core <$> t, w, r).

(** [load_dotenv()]. *)
Definition dotenv : C unit :=
  λ h w, ([LoadDotenv], with_environ (load_dotenv h (environ w)) w, Return tt).

(** [print(line)]. *)
Definition print (line : string) : C unit := λ _ w, ([Print line], w, Return tt).

(** [with open(path, 'w', encoding='utf-8') as f: f.write(content)]. *)
Definition open_write (path content : string) : C unit :=
  λ h w, ([WriteFile path content], w, write_file h path content).

(** [langs] after [langs = ['en']] and
    [if languages: langs = languages.split(',')]. *)
Definition parse_languages (languages : option string) : list string :=
  match languages with
  | Some s => if is_empty s then ["en"] else split "," s
  | None => ["en"]
  end.

(** [kwargs] after [kwargs = {}] and
    [if model: kwargs['model_name'] = model]. *)
Definition model_kwargs (model : option string) : gmap string string :=
  match model with
  | Some m => if is_empty m then ∅ else {[ "model_name" := m ]}
  | None => ∅
  end.

(** The two commands print [len(transcript)], a number of 19 digits at
    most: its conversion to decimal is always made. *)
Definition summarize (url : string) (provider model : option string)
    (max_length : option Z) (languages output_file : option string)
  : C string :=
  do! _ := dotenv in
  do! _ := print ("Fetching transcript for: " +:+ url) in
  let langs := parse_languages languages in
  do! transcript := core (Transcript.get_transcript_text url langs) in
  do! _ := print ("Transcript fetched successfully ("
                  +:+ of_int (Z.of_nat (String.length transcript))
                  +:+ " characters)") in
  do! shown := core (Summarizer.or_str provider
                       (getenv_default "SUMMARY_PROVIDER" "ollama")) in
  do! _ := print ("Summarizing transcript using " +:+ shown
                  +:+ " provider...") in
  let kwargs := model_kwargs model in
  do! summary := core (Summarizer.summarize_text transcript provider
                         max_length kwargs) in
  do! _ := match output_file with
           | Some path =>
               if is_empty path then cret tt
               else do! _ := open_write path summary in
                    print ("Summary saved to " +:+ path)
           | None => cret tt
           end in
  cret summary.

Definition transcript (url : string) (languages output_file : option string)
  : C string :=
  do! _ := dotenv in
  do! _ := print ("Fetching transcript for: " +:+ url) in
  let langs := parse_languages languages in
  do! transcript := core (Transcript.get_transcript_text url langs) in
  do! _ := print ("Transcript fetched successfully ("
                  +:+ of_int (Z.of_nat (String.length transcript))
                  +:+ " characters)") in
  do! _ := match output_file with
           | Some path =>
               if is_empty path then cret tt
               else do! _ := open_write path transcript in
                    print ("Transcript saved to " +:+ path)
           | None => cret tt
           end in
  cret transcript.

(** A logged call of a command is a write. *)
Definition is_write (ev : cli_event) : bool :=
  match ev with
  | WriteFile _ _ => true
  | _ => false
  end.

(** A logged call of a command reaches a generation backend. *)
Definition is_generation (ev : cli_event) : bool :=
  match ev with
  | Core ev => is_backend_call ev
  | _ => false
  end.

(** A flag as the commands take it: an empty string is no flag, and a
    length of [0] is no length. *)
Definition given (flag : option string) : option string :=
  match flag with
  | Some s => if is_empty s then None else Some s
  | None => None
  end.

Definition given_length (max_length : option Z) : option Z :=
  match max_length with
  | Some n => if (n =? 0)%Z then None else Some n
  | None => None
  end.

(** The world after [load_dotenv()]. *)
Definition loaded (h : Host) (w : World) : World :=
  with_environ (load_dotenv h (environ w)) w.

(** The first two logged calls of both commands. *)
Definition opening (url : string) : list cli_event :=
  [LoadDotenv; Print ("Fetching transcript for: " +:+ url)].

(** A host with no [.env] file and a disk that takes every write. *)
Definition plain_host : Host :=
  {| load_dotenv := λ env, env; write_file := λ _ _, Return tt |}.

End Cli.

(** ** Facts on strings *)

Module StrFacts.

Import Str Spec.

#[local] Arguments String.append !_ _ / : simpl nomatch.

Lemma app_nil_r (s : string) : s +:+ "" = s.
Proof. induction s as [|c s IH]; simpl; [done | by rewrite IH]. Qed.

Lemma app_assoc (a b c : string) : (a +:+ b) +:+ c = a +:+ b +:+ c.
Proof. induction a as [|x a IH]; simpl; [done | by rewrite IH]. Qed.

Lemma length_app (a b : string) :
  String.length (a +:+ b) = String.length a + String.length b.
Proof. induction a as [|x a IH]; simpl; [done | by rewrite IH]. Qed.

Lemma app_cons (c : ascii) (a b : string) :
  String c a +:+ b = String c (a +:+ b).
Proof. done. Qed.

Lemma is_empty_true (s : string) : is_empty s = true ↔ s = "".
Proof. destruct s; simpl; split; congruence. Qed.

Lemma is_empty_false (s : string) : is_empty s = false ↔ s ≠ "".
Proof. destruct s; simpl; split; congruence. Qed.

Lemma app_eq_nil (a b : string) : a +:+ b = "" → a = "" ∧ b = "".
Proof. destruct a; simpl; [done | discriminate]. Qed.

(** *** [startswith] *)

Lemma strip_prefix_Some (p s r : string) :
  strip_prefix p s = Some r ↔ s = p +:+ r.
Proof.
  revert s. induction p as [|a p IH]; intros s; simpl.
  - split; congruence.
  - destruct s as [|b s]; [split; discriminate |].
    case_decide as Hab.
    + subst b. rewrite IH. split; [by intros -> | by intros [= ->]].
    + split; [discriminate | intros [= ? _]; by subst].
Qed.

Lemma strip_prefix_app (p r : string) : strip_prefix p (p +:+ r) = Some r.
Proof. by apply strip_prefix_Some. Qed.

Lemma strip_prefix_None (p s : string) :
  strip_prefix p s = None ↔ ∀ r, s ≠ p +:+ r.
Proof.
  split.
  - intros Hn r Hr. apply strip_prefix_Some in Hr. congruence.
  - intros Hn. destruct (strip_prefix p s) as [r|] eqn:E; [|done].
    apply strip_prefix_Some in E. by destruct (Hn r).
Qed.

(** *** [in] *)

Lemma occurs_here (needle b : string) : occurs needle (needle +:+ b).
Proof. by exists "", b. Qed.

Lemma occurs_cons (needle s : string) (c : ascii) :
  occurs needle s → occurs needle (String c s).
Proof. intros (a & b & ->). by exists (String c a), b. Qed.

Lemma occurs_inv (needle s : string) (c : ascii) :
  occurs needle (String c s) →
  (∃ b, String c s = needle +:+ b) ∨ occurs needle s.
Proof.
  intros (a & b & E). destruct a as [|x a]; simpl in E.
  - left. by exists b.
  - right. injection E as _ ->. by exists a, b.
Qed.

Lemma contains_occurs (needle s : string) :
  contains needle s = true ↔ occurs needle s.
Proof.
  induction s as [|c s IH]; simpl.
  - destruct (strip_prefix needle "") as [r|] eqn:E.
    + apply strip_prefix_Some in E. split; [|done].
      intros _. rewrite E. apply occurs_here.
    + split; [discriminate |]. intros (a & b & Hab).
      symmetry in Hab. apply app_eq_nil in Hab as [-> Hab].
      apply app_eq_nil in Hab as [-> ->]. discriminate.
  - destruct (strip_prefix needle (String c s)) as [r|] eqn:E.
    + apply strip_prefix_Some in E. split; [|done].
      intros _. rewrite E. apply occurs_here.
    + rewrite IH. split; [apply occurs_cons |].
      intros [[b Hb] | H]%occurs_inv; [|done].
      apply strip_prefix_Some in Hb. congruence.
Qed.

Lemma contains_false (needle s : string) :
  contains needle s = false ↔ ¬ occurs needle s.
Proof.
  rewrite <- contains_occurs. by destruct (contains needle s).
Qed.

End StrFacts.

(** ** Facts on the pattern matcher *)

Module MatchFacts.

Import Str Spec StrFacts Transcript.

#[local] Arguments String.append !_ _ / : simpl nomatch.

Lemma is_delim_delimiter (c : ascii) : is_delim c = true ↔ delimiter c.
Proof.
  split.
  - intros H. unfold delimiter.
    destruct c as [[] [] [] [] [] [] [] []]; try discriminate H; auto.
  - by intros [-> | [-> | [-> | ->]]].
Qed.

Lemma is_delim_not_delimiter (c : ascii) :
  is_delim c = false ↔ ¬ delimiter c.
Proof. rewrite <- is_delim_delimiter. by destruct (is_delim c). Qed.

Lemma delimiter_free_nil : delimiter_free "".
Proof. intros [|x a] c b E; discriminate E. Qed.

Lemma delimiter_free_cons (c : ascii) (g : string) :
  delimiter_free (String c g) ↔ ¬ delimiter c ∧ delimiter_free g.
Proof.
  split.
  - intros H. split.
    + by apply (H "" c g).
    + intros a x b ->. by apply (H (String c a) x b).
  - intros [Hc Hg] [|y a] x b E; simpl in E.
    + by injection E as -> _.
    + injection E as _ ->. by apply (Hg a x b).
Qed.

(** The greedy run is the identifier the specification describes, and
    the only one. *)
Lemma span_group_shape (s : string) :
  s = (span_group s).1 +:+ (span_group s).2
  ∧ delimiter_free (span_group s).1 ∧ stops (span_group s).2.
Proof.
  induction s as [|c s (IH1 & IH2 & IH3)]; simpl.
  - split_and!; [done | apply delimiter_free_nil | by left].
  - destruct (is_delim c) eqn:Hc; simpl.
    + split_and!; [done | apply delimiter_free_nil |].
      right. exists c, s. by rewrite <- is_delim_delimiter.
    + destruct (span_group s) as [g r]; simpl in *.
      split_and!; [by rewrite <- IH1 | | done].
      apply delimiter_free_cons. by rewrite <- is_delim_not_delimiter.
Qed.

Lemma span_group_unique (g rest : string) :
  delimiter_free g → stops rest → span_group (g +:+ rest) = (g, rest).
Proof.
  intros Hg Hrest. induction g as [|c g IH]; simpl.
  - destruct Hrest as [-> | (c & r & -> & Hc)]; simpl; [done |].
    apply is_delim_delimiter in Hc. by rewrite Hc.
  - apply delimiter_free_cons in Hg as [Hc Hg].
    apply is_delim_not_delimiter in Hc. rewrite Hc, (IH Hg). done.
Qed.

(** The shape of one marker, computed. *)
Lemma shape_computed (m s g : string) :
  shape m s g ↔
  ∃ r, strip_prefix m s = Some r ∧ (span_group r).1 = g
       ∧ is_empty (span_group r).1 = false.
Proof.
  split.
  - intros (rest & -> & Hne & Hg & Hrest).
    exists (g +:+ rest). rewrite strip_prefix_app.
    rewrite (span_group_unique _ _ Hg Hrest). simpl.
    split_and!; [done | done | by apply is_empty_false].
  - intros (r & Hr & <- & Hne). apply strip_prefix_Some in Hr.
    destruct (span_group_shape r) as (E & Hg & Hrest).
    exists (span_group r).2. rewrite <- E.
    split_and!; [done | by apply is_empty_false | done | done].
Qed.

Lemma shape_functional (m s g g' : string) :
  shape m s g → shape m s g' → g = g'.
Proof.
  intros (r & Hr & <- & _)%shape_computed (r' & Hr' & <- & _)%shape_computed.
  congruence.
Qed.

(** The anchored match finds a shape of one of the markers, and fails
    only when none has its shape there. *)
Lemma match_here_Some (markers : list string) (s g : string) :
  match_here markers s = Some g → ∃ m, m ∈ markers ∧ shape m s g.
Proof.
  induction markers as [|m markers IH]; simpl; [done |].
  destruct (strip_prefix m s) as [r|] eqn:Hr.
  - destruct (is_empty (span_group r).1) eqn:Hne.
    + intros (m' & ? & ?)%IH. exists m'. split; [by right | done].
    + intros [= <-]. exists m. split; [by left |].
      apply shape_computed. by exists r.
  - intros (m' & ? & ?)%IH. exists m'. split; [by right | done].
Qed.

Lemma match_here_None (markers : list string) (s : string) :
  match_here markers s = None ↔ ∀ m g, m ∈ markers → ¬ shape m s g.
Proof.
  induction markers as [|m markers IH]; simpl.
  - split; [|done]. intros _ m g Hm. by apply elem_of_nil in Hm.
  - assert (Hrest : (∀ m' g, m' ∈ m :: markers → ¬ shape m' s g) ↔
                    (∀ g, ¬ shape m s g)
                    ∧ ∀ m' g, m' ∈ markers → ¬ shape m' s g).
    { split.
      - intros H. split; [intros g; apply H; by left |].
        intros m' g Hm'. apply H. by right.
      - intros [H1 H2] m' g [-> | Hm']%elem_of_cons; [apply H1 | by apply H2]. }
    rewrite Hrest, <- IH. clear Hrest IH.
    destruct (strip_prefix m s) as [r|] eqn:Hr.
    + destruct (is_empty (span_group r).1) eqn:Hne.
      * split; [|by intros [_ ?]]. intros Hn. split; [|done].
        intros g (r' & Hr' & _ & Hne')%shape_computed. congruence.
      * split; [discriminate |]. intros [H _]. exfalso.
        apply (H (span_group r).1), shape_computed. by exists r.
    + split; [|by intros [_ ?]]. intros Hn. split; [|done].
      intros g (r' & Hr' & _)%shape_computed. congruence.
Qed.

(** *** Positions *)

Lemma shape_at_head (markers : list string) (url g : string) :
  shape_at markers url "" g ↔ ∃ m, m ∈ markers ∧ shape m url g.
Proof.
  split.
  - intros (suf & m & -> & Hm & Hs). by exists m.
  - intros (m & Hm & Hs). by exists url, m.
Qed.

Lemma shape_at_tail (markers : list string) (c c' : ascii)
    (url pre g : string) :
  shape_at markers (String c url) (String c' pre) g
  ↔ c = c' ∧ shape_at markers url pre g.
Proof.
  split.
  - intros (suf & m & E & Hm & Hs). simpl in E. injection E as -> ->.
    split; [done |]. by exists suf, m.
  - intros [-> (suf & m & -> & Hm & Hs)]. by exists suf, m.
Qed.

Lemma shape_at_empty (markers : list string) (pre g : string) :
  shape_at markers "" pre g → pre = "".
Proof.
  intros (suf & m & E & _). symmetry in E. by apply app_eq_nil in E as [-> _].
Qed.

Lemma match_here_None_head (markers : list string) (url : string) :
  match_here markers url = None ↔ ∀ g, ¬ shape_at markers url "" g.
Proof.
  rewrite match_here_None. split.
  - intros H g (m & Hm & Hs)%shape_at_head. by apply (H m g).
  - intros H m g Hm Hs. apply (H g), shape_at_head. by exists m.
Qed.

(** *** [re.search] *)

Lemma re_search_None (markers : list string) (url : string) :
  re_search markers url = None ↔ shapeless markers url.
Proof.
  induction url as [|c url IH]; simpl.
  - destruct (match_here markers "") as [g|] eqn:Hm.
    + split; [discriminate |]. intros H. exfalso.
      apply match_here_Some in Hm. apply (H "" g), shape_at_head, Hm.
    + split; [|done]. intros _ pre g Hs.
      pose proof (shape_at_empty _ _ _ Hs) as ->.
      by apply (proj1 (match_here_None_head _ _) Hm g).
  - destruct (match_here markers (String c url)) as [g|] eqn:Hm.
    + split; [discriminate |]. intros H. exfalso.
      apply match_here_Some in Hm. apply (H "" g), shape_at_head, Hm.
    + rewrite IH. split.
      * intros H [|c' pre] g Hs.
        -- by apply (proj1 (match_here_None_head _ _) Hm g).
        -- apply shape_at_tail in Hs as [_ Hs]. by apply (H pre g).
      * intros H pre g Hs. apply (H (String c pre) g).
        by apply shape_at_tail.
Qed.

(** What [re.search] returns is the identifier of the leftmost shape. *)
Lemma re_search_Some (markers : list string) (url g : string) :
  re_search markers url = Some g → first_shape markers url g.
Proof.
  induction url as [|c url IH]; simpl.
  - destruct (match_here markers "") as [g'|] eqn:Hm; [|done].
    intros [= ->]. exists "". split.
    + apply shape_at_head, match_here_Some, Hm.
    + intros pre' g' Hlt. simpl in Hlt. lia.
  - destruct (match_here markers (String c url)) as [g'|] eqn:Hm.
    + intros [= ->]. exists "". split.
      * apply shape_at_head, match_here_Some, Hm.
      * intros pre' g' Hlt. simpl in Hlt. lia.
    + intros (pre & Hs & Hmin)%IH. exists (String c pre). split.
      * by apply shape_at_tail.
      * intros [|c' pre'] g' Hlt Hs'.
        -- by apply (proj1 (match_here_None_head _ _) Hm g').
        -- apply shape_at_tail in Hs' as [_ Hs'].
           apply (Hmin pre' g'); [simpl in Hlt; lia | done].
Qed.

(** Where the markers of a pattern exclude each other at one place, the
    leftmost shape has one identifier, and [re.search] returns it. *)
Lemma first_shape_re_search (markers : list string) (url g : string) :
  (∀ m m' s x x', m ∈ markers → m' ∈ markers →
                  s = m +:+ x → s = m' +:+ x' → m = m') →
  first_shape markers url g → re_search markers url = Some g.
Proof.
  intros Hex (pre & Hs & Hmin).
  destruct (re_search markers url) as [g'|] eqn:Hr.
  - apply re_search_Some in Hr as (pre' & Hs' & Hmin').
    assert (String.length pre = String.length pre') as Hlen.
    { destruct (decide (String.length pre < String.length pre')) as [Hlt|];
        [by destruct (Hmin' pre g Hlt) |].
      destruct (decide (String.length pre' < String.length pre)) as [Hlt|];
        [by destruct (Hmin pre' g' Hlt) | lia]. }
    destruct Hs as (suf & m & E & Hm & Hsh).
    destruct Hs' as (suf' & m' & E' & Hm' & Hsh').
    assert (pre = pre' ∧ suf = suf') as [-> ->].
    { clear -E E' Hlen. subst url. revert pre' E' Hlen.
      induction pre as [|c pre IH]; intros [|c' pre'] E Hlen;
        simpl in *; try done.
      injection E as -> E. destruct (IH pre' E) as [-> ->]; [lia | done]. }
    assert (m = m') as <-.
    { destruct Hsh as (rest & Ex & _), Hsh' as (rest' & Ex' & _).
      by apply (Hex m m' suf' (g +:+ rest) (g' +:+ rest')). }
    f_equal. by apply (shape_functional m suf').
  - apply re_search_None in Hr. by destruct (Hr pre g).
Qed.

Lemma watch_like_exclusive (m m' s x x' : string) :
  m ∈ watch_like → m' ∈ watch_like →
  s = m +:+ x → s = m' +:+ x' → m = m'.
Proof.
  unfold watch_like. intros Hm Hm' -> E.
  repeat (apply elem_of_cons in Hm as [-> | Hm]);
    [.. | by apply elem_of_nil in Hm];
    repeat (apply elem_of_cons in Hm' as [-> | Hm']);
    try (by apply elem_of_nil in Hm'); try done; simpl in E; discriminate E.
Qed.

Lemma shorts_exclusive (m m' s x x' : string) :
  m ∈ shorts → m' ∈ shorts → s = m +:+ x → s = m' +:+ x' → m = m'.
Proof.
  unfold shorts. intros Hm Hm' _ _.
  apply list_elem_of_singleton in Hm, Hm'. congruence.
Qed.

(** The loop over the two patterns against the specification's
    reading. *)
Lemma first_match_searched (url : string) :
  (∀ g, searched url g ↔ first_match [watch_like; shorts] url = Some g)
  ∧ (no_shape url ↔ first_match [watch_like; shorts] url = None).
Proof.
  unfold searched, no_shape. simpl.
  destruct (re_search watch_like url) as [g1|] eqn:H1.
  - pose proof (re_search_Some _ _ _ H1) as F1. split.
    + intros g. split.
      * intros [F | [Hn _]].
        -- by rewrite (first_shape_re_search _ _ _ watch_like_exclusive F)
             in H1; injection H1 as ->.
        -- apply re_search_None in Hn. congruence.
      * intros [= ->]. by left.
    + split; [|done]. intros [Hn _]. apply re_search_None in Hn. congruence.
  - pose proof (proj1 (re_search_None _ _) H1) as N1.
    destruct (re_search shorts url) as [g2|] eqn:H2.
    + pose proof (re_search_Some _ _ _ H2) as F2. split.
      * intros g. split.
        -- intros [F | [_ F]].
           ++ rewrite (first_shape_re_search _ _ _ watch_like_exclusive F)
                in H1. done.
           ++ by rewrite (first_shape_re_search _ _ _ shorts_exclusive F)
                in H2; injection H2 as ->.
        -- intros [= ->]. by right.
      * split; [|done]. intros [_ Hn]. apply re_search_None in Hn.
        congruence.
    + pose proof (proj1 (re_search_None _ _) H2) as N2. split.
      * intros g. split; [|done]. intros [F | [_ F]].
        -- rewrite (first_shape_re_search _ _ _ watch_like_exclusive F)
             in H1. done.
        -- rewrite (first_shape_re_search _ _ _ shorts_exclusive F)
             in H2. done.
      * done.
Qed.

Lemma patterns_spec : patterns = [watch_like; shorts].
Proof. reflexivity. Qed.

Lemma no_shape_raises (url : string) :
  no_shape url → extract_video_id url = Raise (InvalidReference url).
Proof.
  intros H. unfold extract_video_id. rewrite patterns_spec.
  by rewrite (proj1 (proj2 (first_match_searched url)) H).
Qed.

Lemma no_shape_computed (url : string) :
  first_match patterns url = None → no_shape url.
Proof.
  rewrite patterns_spec. apply (proj2 (first_match_searched url)).
Qed.

(** The test for a URL is the specification's domain marker. *)
Lemma has_domain_marker_computed (s : string) :
  contains "youtube.com" s || contains "youtu.be" s = true
  ↔ has_domain_marker s.
Proof.
  unfold has_domain_marker.
  rewrite orb_true_iff, !contains_occurs. done.
Qed.

Lemma no_domain_marker_computed (s : string) :
  contains "youtube.com" s || contains "youtu.be" s = false
  ↔ ¬ has_domain_marker s.
Proof.
  rewrite <- has_domain_marker_computed.
  by destruct (contains "youtube.com" s || contains "youtu.be" s).
Qed.

End MatchFacts.

(** ** Properties of transcript.py *)

Module TranscriptProps.

Import Str Spec StrFacts MatchFacts Transcript.

#[local] Arguments String.append !_ _ / : simpl nomatch.

(** The supported shapes, run. *)
Example extract_watch :
  extract_video_id "https://www.youtube.com/watch?v=TdAAUoJ065o"
  = Return "TdAAUoJ065o".
Proof. reflexivity. Qed.

Example extract_watch_share :
  extract_video_id "https://www.youtube.com/watch?v=TdAAUoJ065o&feature=share"
  = Return "TdAAUoJ065o".
Proof. reflexivity. Qed.

Example extract_short_link :
  extract_video_id "https://youtu.be/TdAAUoJ065o?t=42" = Return "TdAAUoJ065o".
Proof. reflexivity. Qed.

Example extract_embed :
  extract_video_id "https://www.youtube.com/embed/TdAAUoJ065o#top"
  = Return "TdAAUoJ065o".
Proof. reflexivity. Qed.

Example extract_v :
  extract_video_id "http://youtube.com/v/TdAAUoJ065o" = Return "TdAAUoJ065o".
Proof. reflexivity. Qed.

Example extract_shorts :
  extract_video_id "https://youtube.com/shorts/TdAAUoJ065o?feature=share"
  = Return "TdAAUoJ065o".
Proof. reflexivity. Qed.

(** The first pattern is searched through the whole string before the
    second is tried. *)
Example extract_shorts_after_watch_like :
  extract_video_id "https://youtube.com/shorts/abc?ref=youtu.be/xyz"
  = Return "xyz".
Proof. reflexivity. Qed.

Example extract_none :
  extract_video_id "https://www.youtube.com/watch?feature=share&v=abc"
  = Raise (InvalidReference
             "https://www.youtube.com/watch?feature=share&v=abc").
Proof. reflexivity. Qed.

(** What [extract_video_id] does, for every string: it returns [g]
    exactly when [g] is the identifier the two searches find, in their
    order, and fails with [InvalidReference] exactly when the string has
    none of the shapes. *)
Lemma extract_video_id_searched (url : string) :
  (∀ g, searched url g ↔ extract_video_id url = Return g)
  ∧ (no_shape url ↔ extract_video_id url = Raise (InvalidReference url)).
Proof.
  destruct (first_match_searched url) as [Hid Hno].
  unfold extract_video_id, InvalidReference. rewrite patterns_spec. split.
  - intros g. rewrite Hid.
    destruct (first_match [watch_like; shorts] url); split; congruence.
  - rewrite Hno.
    destruct (first_match [watch_like; shorts] url); split; congruence.
Qed.

(** C3, the shorts shape with trailing query parameters. The URL below is
    of the [/shorts/] shape, its identifier [abc] stands at the leftmost
    supported shape and is followed by query parameters; the code returns
    [xyz], a piece of the query, since the first pattern is searched
    through the whole string before the second is tried. Without the
    parameter the code returns [abc], and for a watch-like URL with the
    same kind of parameter it returns the identifier. *)
Theorem extract_video_id_shorts_query :
  shape_at shorts "https://youtube.com/shorts/abc?ref=youtu.be/xyz"
    "https://" "abc"
  ∧ identifier "https://youtube.com/shorts/abc?ref=youtu.be/xyz" "abc"
  ∧ extract_video_id "https://youtube.com/shorts/abc?ref=youtu.be/xyz"
    = Return "xyz"
  ∧ extract_video_id "https://youtube.com/shorts/abc" = Return "abc"
  ∧ identifier "https://youtube.com/watch?v=abc&ref=youtu.be/xyz" "abc"
  ∧ extract_video_id "https://youtube.com/watch?v=abc&ref=youtu.be/xyz"
    = Return "abc".
Proof.
  split_and!; try reflexivity.
  - exists "youtube.com/shorts/abc?ref=youtu.be/xyz", "youtube.com/shorts/".
    split_and!; [reflexivity | by apply list_elem_of_singleton |].
    apply shape_computed. eexists. split_and!; reflexivity.
  - apply re_search_Some. reflexivity.
  - apply re_search_Some. reflexivity.
Qed.

(** *** A URL with one shape

    The usual case of C3: a URL that has the word [youtu] only in its
    marker. *)

Lemma app_split (a b a' b' : string) :
  a +:+ b = a' +:+ b' →
  (∃ d, a = a' +:+ d ∧ b' = d +:+ b) ∨ (∃ d, a' = a +:+ d ∧ b = d +:+ b').
Proof.
  revert a'. induction a as [|c a IH]; intros a' E; simpl in E.
  - right. by exists a'.
  - destruct a' as [|c' a']; simpl in E.
    + left. by exists (String c a).
    + injection E as -> E.
      destruct (IH a' E) as [(d & -> & ->) | (d & -> & ->)];
        [left | right]; by exists d.
Qed.

Lemma marker_begins (m : string) :
  m ∈ watch_like ∨ m ∈ shorts → ∃ m', m = "youtu" +:+ m'.
Proof.
  unfold watch_like, shorts. intros [Hm | Hm];
    repeat (apply elem_of_cons in Hm as [-> | Hm]); try (by eexists);
    by apply elem_of_nil in Hm.
Qed.

(** [youtu] does not overlap itself: before a marker that follows a
    prefix without the word, no marker begins. *)
Lemma no_marker_before (pre pre' x y : string) :
  ¬ occurs "youtu" pre →
  String.length pre' < String.length pre →
  pre +:+ "youtu" +:+ x = pre' +:+ "youtu" +:+ y → False.
Proof.
  intros Hpre Hlt E.
  apply app_split in E as [(d & -> & E) | (d & -> & _)].
  - rewrite length_app in Hlt.
    destruct d as [|c1 [|c2 [|c3 [|c4 [|c5 d]]]]]; simpl in *;
      try lia; try discriminate E.
    injection E as <- <- <- <- <- _. apply Hpre. by exists pre', d.
  - rewrite length_app in Hlt. lia.
Qed.

Lemma first_shape_single (markers : list string) (pre m g rest : string) :
  (∀ m', m' ∈ markers → m' ∈ watch_like ∨ m' ∈ shorts) →
  m ∈ markers → ¬ occurs "youtu" pre →
  g ≠ "" → delimiter_free g → stops rest →
  first_shape markers (pre +:+ m +:+ g +:+ rest) g.
Proof.
  intros Hall Hm Hpre Hg Hfree Hstop. exists pre. split.
  - exists (m +:+ g +:+ rest), m. split_and!; [done | done |]. by exists rest.
  - intros pre' g' Hlt (suf & m' & E & Hm' & rest' & -> & _).
    destruct (marker_begins m (Hall m Hm)) as [x ->].
    destruct (marker_begins m' (Hall m' Hm')) as [x' ->].
    rewrite !app_assoc in E.
    by apply (no_marker_before _ _ _ _ Hpre Hlt E).
Qed.

(** A URL of a watch-like shape, with or without what follows the
    identifier. *)
Lemma extract_video_id_watch_like (pre m g rest : string) :
  m ∈ watch_like → ¬ occurs "youtu" pre →
  g ≠ "" → delimiter_free g → stops rest →
  extract_video_id (pre +:+ m +:+ g +:+ rest) = Return g.
Proof.
  intros Hm Hpre Hg Hfree Hstop.
  unfold extract_video_id. rewrite patterns_spec.
  assert (searched (pre +:+ m +:+ g +:+ rest) g) as Hid.
  { left. apply first_shape_single; try done. intros m' ?. by left. }
  by rewrite (proj1 (proj1 (first_match_searched _) g) Hid).
Qed.

Lemma occurs_after_shorts (t : string) :
  occurs "youtu" ("outube.com/shorts/" +:+ t) → occurs "youtu" t.
Proof.
  intros H. simpl in H.
  repeat (apply occurs_inv in H as [[b Hb] | H];
          [simpl in Hb; discriminate Hb |]).
  exact H.
Qed.

(** A URL of the shorts shape: the word is to be nowhere else, since the
    watch-like pattern is searched first. *)
Lemma extract_video_id_shorts (pre g rest : string) :
  ¬ occurs "youtu" pre → ¬ occurs "youtu" (g +:+ rest) →
  g ≠ "" → delimiter_free g → stops rest →
  extract_video_id (pre +:+ "youtube.com/shorts/" +:+ g +:+ rest) = Return g.
Proof.
  intros Hpre Htail Hg Hfree Hstop.
  unfold extract_video_id. rewrite patterns_spec.
  assert (searched (pre +:+ "youtube.com/shorts/" +:+ g +:+ rest) g)
    as Hid; [|by rewrite (proj1 (proj1 (first_match_searched _) g) Hid)].
  right. split.
  - intros pre' g' (suf & m' & E & Hm' & rest' & -> & _).
    apply app_split in E as [(d & -> & E) | (d & -> & E)].
    + destruct d as [|c d].
      * unfold watch_like in Hm'. simpl in E.
        repeat (apply elem_of_cons in Hm' as [-> | Hm']);
          try discriminate E. by apply elem_of_nil in Hm'.
      * destruct (marker_begins m' (or_introl Hm')) as [x' ->].
        apply (no_marker_before (pre' +:+ String c d) pre'
                 ("be.com/shorts/" +:+ g +:+ rest)
                 (x' +:+ g' +:+ rest') Hpre).
        -- rewrite length_app. simpl. lia.
        -- rewrite !app_assoc. rewrite !app_assoc in E. simpl in *.
           by rewrite E.
    + destruct d as [|c d].
      * unfold watch_like in Hm'. simpl in E.
        repeat (apply elem_of_cons in Hm' as [-> | Hm']);
          try discriminate E. by apply elem_of_nil in Hm'.
      * destruct (marker_begins m' (or_introl Hm')) as [x' ->].
        simpl in E. injection E as _ E. apply Htail, occurs_after_shorts.
        exists d, (x' +:+ g' +:+ rest'). simpl. by rewrite E.
  - apply first_shape_single; try done.
    + intros m' ?. by right.
    + unfold shorts. by apply list_elem_of_singleton.
Qed.

(** Where the word [youtu] is in the marker only (for a shorts URL: not
    behind the identifier either), the code returns the identifier of the
    specification, for each of the five shapes, with or without what
    follows the identifier. *)
Lemma extract_video_id_supported (pre m g rest : string) :
  m ∈ supported → ¬ occurs "youtu" pre →
  (m = "youtube.com/shorts/" → ¬ occurs "youtu" (g +:+ rest)) →
  g ≠ "" → delimiter_free g → stops rest →
  identifier (pre +:+ m +:+ g +:+ rest) g
  ∧ extract_video_id (pre +:+ m +:+ g +:+ rest) = Return g.
Proof.
  intros Hm Hpre Htail Hg Hfree Hstop.
  assert (m ∈ watch_like ∨ m = "youtube.com/shorts/") as Hcase.
  { unfold supported in Hm. unfold watch_like.
    repeat (apply elem_of_cons in Hm as [-> | Hm]);
      [left; do 0 right; left | left; do 1 right; left
      | left; do 2 right; left | left; do 3 right; left | by right
      | by apply elem_of_nil in Hm]. }
  split.
  - apply first_shape_single; try done.
    intros m' Hm'. unfold supported in Hm'. unfold watch_like, shorts.
    repeat (apply elem_of_cons in Hm' as [-> | Hm']);
      [left; do 0 right; left | left; do 1 right; left
      | left; do 2 right; left | left; do 3 right; left
      | right; left | by apply elem_of_nil in Hm'].
  - destruct Hcase as [Hw | ->].
    + by apply extract_video_id_watch_like.
    + apply extract_video_id_shorts; auto.
Qed.

(** *** get_transcript *)

(** The guarded call to the captioning service, by what the service
    does. *)
Lemma get_transcript_resolved (input video_id : string)
    (languages : list string) (w : World) :
  (has_domain_marker input ∧ extract_video_id input = Return video_id
   ∨ ¬ has_domain_marker input ∧ video_id = input) →
  get_transcript input languages w
  = match YouTubeTranscriptApi_get_transcript w video_id languages with
    | Return segs => ([FetchCaptions video_id languages], Return segs)
    | Raise e =>
        ([FetchCaptions video_id languages],
         Raise (if is_Exception (exc_type e)
                then TranscriptUnavailable (exc_str e) else e))
    end.
Proof.
  unfold get_transcript, bind, try_except_Exception, call, lift, ret, raise.
  intros [[Hm He] | [Hm ->]].
  - apply has_domain_marker_computed in Hm. rewrite Hm, He. simpl.
    destruct (YouTubeTranscriptApi_get_transcript w video_id languages)
      as [segs | e]; [done |].
    by destruct (is_Exception (exc_type e)).
  - apply no_domain_marker_computed in Hm. rewrite Hm. simpl.
    destruct (YouTubeTranscriptApi_get_transcript w input languages)
      as [segs | e]; [done |].
    by destruct (is_Exception (exc_type e)).
Qed.

(** C2. An input with a domain marker is resolved through
    [extract_video_id], any other input is the identifier itself; the
    service is asked for that identifier, and an error it raises comes
    out as [TranscriptUnavailable] around the message of the cause. *)
Theorem get_transcript_routing (input video_id : string)
    (languages : list string) (w : World) :
  (has_domain_marker input ∧ extract_video_id input = Return video_id
   ∨ ¬ has_domain_marker input ∧ video_id = input) →
  (∀ segs,
     YouTubeTranscriptApi_get_transcript w video_id languages = Return segs →
     get_transcript input languages w
     = ([FetchCaptions video_id languages], Return segs))
  ∧ (∀ e,
       YouTubeTranscriptApi_get_transcript w video_id languages = Raise e →
       is_Exception (exc_type e) = true →
       get_transcript input languages w
       = ([FetchCaptions video_id languages],
          Raise (TranscriptUnavailable (exc_str e)))).
Proof.
  intros H. rewrite (get_transcript_resolved _ _ _ _ H). split.
  - by intros segs ->.
  - by intros e -> ->.
Qed.

Lemma get_transcript_routing_witness :
  get_transcript "https://youtu.be/TdAAUoJ065o?t=42" ["en"]
    (Demo.world ∅ false (Raise Demo.disabled) "")
  = ([FetchCaptions "TdAAUoJ065o" ["en"]],
     Raise (TranscriptUnavailable "Subtitles are disabled for this video")).
Proof.
  refine (proj2 (get_transcript_routing
                   "https://youtu.be/TdAAUoJ065o?t=42" "TdAAUoJ065o" ["en"]
                   (Demo.world ∅ false (Raise Demo.disabled) "") _)
                Demo.disabled _ _).
  - left. split; [|reflexivity].
    apply has_domain_marker_computed. reflexivity.
  - reflexivity.
  - reflexivity.
Defined.

(** What [except Exception] does not catch goes through as it is. *)
Lemma get_transcript_uncaught (input video_id : string)
    (languages : list string) (w : World) (e : exception) :
  (has_domain_marker input ∧ extract_video_id input = Return video_id
   ∨ ¬ has_domain_marker input ∧ video_id = input) →
  YouTubeTranscriptApi_get_transcript w video_id languages = Raise e →
  is_Exception (exc_type e) = false →
  get_transcript input languages w
  = ([FetchCaptions video_id languages], Raise e).
Proof.
  intros H He Hc. by rewrite (get_transcript_resolved _ _ _ _ H), He, Hc.
Qed.

(** C10. An input with a domain marker and none of the URL shapes fails
    with the [InvalidReference] of the extraction: the service is not
    asked, and the error is no [TranscriptUnavailable]. *)
Theorem get_transcript_invalid_reference (input : string)
    (languages : list string) (w : World) :
  has_domain_marker input → no_shape input →
  get_transcript input languages w = ([], Raise (InvalidReference input))
  ∧ ∀ cause, InvalidReference input ≠ TranscriptUnavailable cause.
Proof.
  intros Hm Hn. split.
  - unfold get_transcript, bind, lift.
    apply has_domain_marker_computed in Hm. rewrite Hm.
    by rewrite (no_shape_raises _ Hn).
  - intros cause. unfold InvalidReference, TranscriptUnavailable.
    simpl. discriminate.
Qed.

Lemma get_transcript_invalid_reference_witness :
  get_transcript "https://www.youtube.com/playlist?list=PL1" ["en"]
    (Demo.world ∅ false (Return Demo.segments) "")
  = ([], Raise (InvalidReference
                  "https://www.youtube.com/playlist?list=PL1")).
Proof.
  refine (proj1 (get_transcript_invalid_reference
                   "https://www.youtube.com/playlist?list=PL1" ["en"]
                   (Demo.world ∅ false (Return Demo.segments) "") _ _)).
  - apply has_domain_marker_computed. reflexivity.
  - apply no_shape_computed. reflexivity.
Defined.

(** *** get_transcript_text *)

Lemma joined_cons (x y : string) (l : list string) :
  joined (x :: y :: l) = x +:+ " " +:+ joined (y :: l).
Proof.
  unfold joined. simpl. revert x y.
  induction l as [|z l IH]; intros x y; simpl; [done |].
  rewrite IH, (IH y z). by rewrite !app_assoc.
Qed.

(** [' '.join] is the specification's joining. *)
Lemma join_joined (texts : list string) : join " " texts = joined texts.
Proof.
  induction texts as [|x [|y l] IH]; [done | done |].
  rewrite joined_cons, <- IH. done.
Qed.

(** Nothing is dropped or added but one space between two texts. *)
Lemma joined_length (texts : list string) :
  String.length (joined texts)
  = total_length texts + (length texts - 1).
Proof.
  unfold total_length.
  induction texts as [|x [|y l] IH]; [done | simpl; lia |].
  rewrite joined_cons, !length_app, IH. simpl. lia.
Qed.

(** C5. Once the transcript is retrieved, [get_transcript_text] returns
    the texts of its segments in their order with one space between two
    of them, nothing dropped and nothing else added; with no segment it
    returns the empty string. *)
Theorem get_transcript_text_joined (input : string)
    (languages : list string) (w : World) (t : list event)
    (segs : list TranscriptSegment) :
  get_transcript input languages w = (t, Return segs) →
  get_transcript_text input languages w
  = (t, Return (joined (map text segs)))
  ∧ String.length (joined (map text segs))
    = total_length (map text segs) + (length segs - 1)
  ∧ (segs = [] → get_transcript_text input languages w = (t, Return "")).
Proof.
  intros H.
  assert (get_transcript_text input languages w
          = (t, Return (joined (map text segs)))) as E.
  { unfold get_transcript_text, bind, ret. rewrite H.
    by rewrite join_joined, (right_id_L [] (++)). }
  split_and!.
  - exact E.
  - rewrite joined_length. by rewrite length_map.
  - intros ->. exact E.
Qed.

Lemma get_transcript_text_joined_witness :
  get_transcript_text "TdAAUoJ065o" ["en"]
    (Demo.world ∅ false (Return Demo.segments) "")
  = ([FetchCaptions "TdAAUoJ065o" ["en"]], Return "Hello world").
Proof.
  refine (proj1 (get_transcript_text_joined "TdAAUoJ065o" ["en"]
                   (Demo.world ∅ false (Return Demo.segments) "")
                   [FetchCaptions "TdAAUoJ065o" ["en"]] Demo.segments _)).
  reflexivity.
Defined.

Example get_transcript_text_empty :
  get_transcript_text "TdAAUoJ065o" ["en"]
    (Demo.world ∅ false (Return []) "")
  = ([FetchCaptions "TdAAUoJ065o" ["en"]], Return "").
Proof. reflexivity. Qed.

End TranscriptProps.

(** ** Facts on [strip] and on occurrences across a line break *)

Module StripFacts.

Import Str Spec StrFacts.

#[local] Arguments String.append !_ _ / : simpl nomatch.

Lemma white_nil : white "".
Proof. intros [|x a] c b E; discriminate E. Qed.

Lemma white_cons (c : ascii) (s : string) :
  white (String c s) ↔ is_space c = true ∧ white s.
Proof.
  split.
  - intros H. split.
    + by apply (H "" c s).
    + intros a x b ->. by apply (H (String c a) x b).
  - intros [Hc Hs] [|y a] x b E; simpl in E.
    + by injection E as -> _.
    + injection E as _ ->. by apply (Hs a x b).
Qed.

Lemma lstrip_white (r : string) : ∃ l, r = l +:+ lstrip r ∧ white l.
Proof.
  induction r as [|c r (l & E & Hl)]; simpl.
  - exists "". split; [done | apply white_nil].
  - destruct (is_space c) eqn:Hc.
    + exists (String c l). simpl. split; [by rewrite <- E |].
      by apply white_cons.
    + exists "". split; [done | apply white_nil].
Qed.

Lemma lstrip_head (r : string) (c : ascii) (s : string) :
  lstrip r = String c s → is_space c = false.
Proof.
  induction r as [|x r IH]; simpl; [done |].
  destruct (is_space x) eqn:Hx; [done |]. by intros [= <- _].
Qed.

Lemma rstrip_white (s : string) : ∃ t, s = rstrip s +:+ t ∧ white t.
Proof.
  induction s as [|c s (t & E & Ht)]; simpl.
  - exists "". split; [done | apply white_nil].
  - destruct (is_space c) eqn:Hc; simpl.
    + destruct (rstrip s) as [|x r] eqn:Hr; simpl in *.
      * exists (String c t). split; [by rewrite <- E |].
        by apply white_cons.
      * exists t. split; [by rewrite <- E | done].
    + exists t. split; [by rewrite <- E | done].
Qed.

Lemma rstrip_last (s s' : string) (c : ascii) :
  rstrip s = s' +:+ String c "" → is_space c = false.
Proof.
  revert s'. induction s as [|x s IH]; intros s'; simpl.
  - destruct s'; discriminate.
  - destruct (is_space x && is_empty (rstrip s)) eqn:Hx.
    + destruct s'; discriminate.
    + destruct s' as [|y s']; simpl.
      * intros [= -> Hr]. rewrite Hr in Hx. simpl in Hx.
        by rewrite andb_true_r in Hx.
      * intros [= _ Hr]. by apply (IH s').
Qed.

Lemma rstrip_head (s : string) (c : ascii) (s' : string) :
  rstrip s = String c s' → ∃ s0, s = String c s0.
Proof.
  destruct s as [|x s]; simpl; [done |].
  destruct (is_space x && is_empty (rstrip s)); [done |].
  intros [= -> _]. by exists s.
Qed.

(** [strip] removes the white space of both ends and nothing else. *)
Lemma strip_trimmed (r : string) : trimmed r (strip r).
Proof.
  unfold strip, trimmed.
  destruct (lstrip_white r) as (l & El & Hl).
  destruct (rstrip_white (lstrip r)) as (t & Et & Ht).
  split_and!.
  - exists l, t. split_and!; [|done..]. by rewrite <- Et.
  - intros c s' E. apply rstrip_head in E as [s0 E].
    by apply lstrip_head in E.
  - intros s' c E. by apply rstrip_last in E.
Qed.

Lemma strip_fixed (s : string) :
  (∀ c s', s = String c s' → is_space c = false) →
  (∀ s' c, s = s' +:+ String c "" → is_space c = false) →
  strip s = s.
Proof.
  intros Hhead Hlast. unfold strip.
  assert (lstrip s = s) as ->.
  { destruct s as [|c s]; simpl; [done |]. by rewrite (Hhead c s). }
  clear Hhead. induction s as [|c s IH]; simpl; [done |].
  destruct s as [|x s].
  - simpl. by rewrite (Hlast "" c), andb_false_l.
  - rewrite IH.
    + by rewrite andb_false_r.
    + intros s' y E. apply (Hlast (String c s') y). simpl. by rewrite <- E.
Qed.

(** *** Occurrences and a character the needle does not have *)

Lemma prefix_before (c : ascii) (needle a b y : string) :
  ¬ occurs (String c "") needle →
  a +:+ String c b = needle +:+ y → ∃ y', a = needle +:+ y'.
Proof.
  intros Hc. revert a. induction needle as [|n needle IH]; intros a E.
  - by exists a.
  - destruct a as [|d a]; simpl in E.
    + injection E as -> _. destruct Hc. by exists "", needle.
    + injection E as -> E. destruct (IH) with (a := a) as [y' ->]; [|done|].
      * intros (u & v & ->). apply Hc. by exists (String n u), v.
      * by exists y'.
Qed.

(** A needle without [c] does not straddle an occurrence of [c]. *)
Lemma occurs_split (c : ascii) (needle a b : string) :
  ¬ occurs (String c "") needle →
  occurs needle (a +:+ String c b) → occurs needle a ∨ occurs needle b.
Proof.
  intros Hc (x & y & E). revert x E.
  induction a as [|d a IH]; intros x E; simpl in E.
  - destruct x as [|x0 x]; simpl in E.
    + destruct needle as [|n needle]; simpl in E.
      * left. by exists "", "".
      * injection E as -> _. destruct Hc. by exists "", needle.
    + injection E as _ ->. right. by exists x, y.
  - destruct x as [|x0 x]; simpl in E.
    + left. change (String d (a +:+ String c b))
        with (String d a +:+ String c b) in E.
      destruct (prefix_before _ _ _ _ _ Hc E) as [y' ->]. by exists "", y'.
    + injection E as _ E. destruct (IH x E) as [H | H]; [left | by right].
      by apply occurs_cons.
Qed.

Lemma occurs_app_r (needle a b : string) :
  occurs needle b → occurs needle (a +:+ b).
Proof.
  intros (x & y & ->). exists (a +:+ x), y. by rewrite app_assoc.
Qed.

End StripFacts.

(** ** Facts on the decimal digits of an [int] *)

Module DigitFacts.

Lemma string_of_uint_length (d : Decimal.uint) :
  String.length (NilEmpty.string_of_uint d) = Decimal.nb_digits d.
Proof. induction d; simpl; congruence. Qed.

Lemma of_uint_acc_bounds (d : Decimal.uint) (acc : positive) :
  (Z.pos acc * 10 ^ Z.of_nat (Decimal.nb_digits d)
   ≤ Z.pos (Pos.of_uint_acc d acc)
   < (Z.pos acc + 1) * 10 ^ Z.of_nat (Decimal.nb_digits d))%Z.
Proof.
  revert acc. induction d as [|d IH|d IH|d IH|d IH|d IH|d IH|d IH|d IH|d IH|d IH];
    intros acc; [simpl; lia | ..];
    cbn [Pos.of_uint_acc Decimal.nb_digits];
    rewrite Nat2Z.inj_succ, Z.pow_succ_r by lia;
    match goal with |- context [Pos.of_uint_acc d ?a] => specialize (IH a) end;
    nia.
Qed.

Lemma to_uint_unorm (p : positive) :
  Decimal.unorm (Pos.to_uint p) = Pos.to_uint p.
Proof.
  rewrite <- (DecimalPos.Unsigned.to_of (Pos.to_uint p)).
  by rewrite DecimalPos.Unsigned.of_to.
Qed.

Lemma to_uint_digits (p : positive) :
  (10 ^ (Z.of_nat (Decimal.nb_digits (Pos.to_uint p)) - 1) ≤ Z.pos p
   < 10 ^ Z.of_nat (Decimal.nb_digits (Pos.to_uint p)))%Z.
Proof.
  pose proof (DecimalPos.Unsigned.of_to p) as Hof.
  pose proof (to_uint_unorm p) as Hn.
  pose proof (DecimalPos.Unsigned.to_uint_nonzero p) as Hz.
  pose proof (DecimalPos.Unsigned.to_uint_nonnil p) as Hnil.
  destruct (Pos.to_uint p) as [|d|d|d|d|d|d|d|d|d|d]; [done | ..];
    try (cbn [Pos.of_uint] in Hof; injection Hof as <-;
         cbn [Decimal.nb_digits];
         rewrite Nat2Z.inj_succ;
         replace (Z.succ (Z.of_nat (Decimal.nb_digits d)) - 1)%Z
           with (Z.of_nat (Decimal.nb_digits d)) by lia;
         rewrite Z.pow_succ_r by lia;
         match goal with
         | |- context [Pos.of_uint_acc d ?a] =>
             pose proof (of_uint_acc_bounds d a)
         end; nia).
  exfalso. unfold Decimal.unorm in Hn. cbn [Decimal.nzhead] in Hn.
  pose proof (DecimalFacts.nb_digits_nzhead d) as Hle.
  destruct (Decimal.nzhead d) eqn:E; try (rewrite Hn in Hle; simpl in Hle; lia).
  injection Hn as <-. by apply Hz.
Qed.

Lemma of_int_pos_length (p : positive) :
  String.length (Str.of_int (Z.pos p)) = Decimal.nb_digits (Pos.to_uint p).
Proof.
  unfold Str.of_int. cbn [Z.to_int NilZero.string_of_int].
  unfold NilZero.string_of_uint.
  pose proof (DecimalPos.Unsigned.to_uint_nonnil p).
  destruct (Pos.to_uint p) eqn:E; try done; rewrite <- E;
    by rewrite string_of_uint_length.
Qed.

Lemma of_int_neg_length (p : positive) :
  String.length (Str.of_int (Z.neg p)) = S (Decimal.nb_digits (Pos.to_uint p)).
Proof.
  unfold Str.of_int. cbn [Z.to_int NilZero.string_of_int].
  unfold NilZero.string_of_uint.
  pose proof (DecimalPos.Unsigned.to_uint_nonnil p).
  destruct (Pos.to_uint p) eqn:E; try done; rewrite <- E; simpl;
    by rewrite string_of_uint_length.
Qed.

Lemma pow10_digits (limit nb v : Z) :
  (0 ≤ limit)%Z → (0 < nb)%Z →
  (10 ^ (nb - 1) ≤ v < 10 ^ nb)%Z →
  (limit < nb)%Z ↔ (10 ^ limit ≤ v)%Z.
Proof.
  intros Hl Hnb [Hlo Hhi]. split.
  - intros Hlt. etrans; [|exact Hlo]. apply Z.pow_le_mono_r; lia.
  - intros Hle. apply (Z.pow_lt_mono_r_iff 10); lia.
Qed.

Lemma exceeds_limit_spec (limit n : Z) :
  (int_str_threshold ≤ limit)%Z →
  exceeds_limit limit n = true ↔ (10 ^ limit ≤ Z.abs n)%Z.
Proof.
  unfold exceeds_limit, int_str_threshold. intros Hl.
  destruct n as [|p|p].
  - change (Str.of_int 0) with "0". simpl. split; [done |].
    intros H. assert (0 < 10 ^ limit)%Z by (apply Z.pow_pos_nonneg; lia).
    simpl in H. lia.
  - rewrite of_int_pos_length.
    change (Z.pos p <? 0)%Z with false. change (Z.abs (Z.pos p)) with (Z.pos p).
    pose proof (to_uint_digits p) as Hd.
    assert (0 < Z.of_nat (Decimal.nb_digits (Pos.to_uint p)))%Z as Hnb.
    { pose proof (DecimalPos.Unsigned.to_uint_nonnil p) as Hn.
      destruct (Pos.to_uint p); [done | simpl; lia ..]. }
    rewrite <- (pow10_digits limit _ _ ltac:(lia) Hnb Hd).
    rewrite !andb_true_iff, !Z.ltb_lt. lia.
  - rewrite of_int_neg_length.
    change (Z.neg p <? 0)%Z with true. change (Z.abs (Z.neg p)) with (Z.pos p).
    pose proof (to_uint_digits p) as Hd.
    assert (0 < Z.of_nat (Decimal.nb_digits (Pos.to_uint p)))%Z as Hnb.
    { pose proof (DecimalPos.Unsigned.to_uint_nonnil p) as Hn.
      destruct (Pos.to_uint p); [done | simpl; lia ..]. }
    rewrite <- (pow10_digits limit _ _ ltac:(lia) Hnb Hd).
    rewrite !andb_true_iff, !Z.ltb_lt. lia.
Qed.

End DigitFacts.

(** ** Properties of summarizer.py *)

Module SummarizerProps.

Import Str Spec StrFacts StripFacts Summarizer.

#[local] Arguments String.append !_ _ / : simpl nomatch.

(** *** The prompts *)

Example ollama_prompt_50 :
  ollama_prompt "Hello world" (Some 50%Z)
  = "Please provide a concise summary of the following transcript." +:+ nl
    +:+ "Focus on the main points and key insights." +:+ nl +:+ nl
    +:+ "TRANSCRIPT:" +:+ nl +:+ "Hello world" +:+ nl +:+ nl +:+ "SUMMARY:"
    +:+ nl +:+ "(Please keep the summary under 50 words)".
Proof. reflexivity. Qed.

Example openai_user_message_50 :
  openai_user_message "Hello world" (Some 50%Z)
  = "Please summarize the following transcript:" +:+ nl +:+ nl
    +:+ "Hello world" +:+ nl +:+ nl +:+ "Keep the summary under 50 words.".
Proof. reflexivity. Qed.

Example anthropic_user_message_None :
  anthropic_user_message "Hello world" None
  = "Here is the transcript to summarize:" +:+ nl +:+ nl +:+ "Hello world".
Proof. reflexivity. Qed.

(** *** The conversion of [max_length] *)

Lemma format_clause_run (max_length : option Z) (w : World) :
  format_clause max_length w
  = ([], if Run.refused w max_length
         then Raise (int_str_error (int_max_str_digits w))
         else Return tt).
Proof.
  destruct max_length as [n|]; [|done].
  unfold format_clause, Run.refused. destruct (n =? 0)%Z; [done |].
  unfold bind, format_int, ret. simpl.
  by destruct (exceeds_limit (int_max_str_digits w) n).
Qed.

(** On an interpreter with a digit limit, [640] at least as CPython
    requires of one, the conversion is refused for the numbers of more
    digits than the limit: those of absolute value [10 ^ limit] and
    more. *)
Lemma refused_spec (w : World) (n : Z) :
  (int_str_threshold ≤ int_max_str_digits w)%Z →
  Run.refused w (Some n) = true ↔ (10 ^ int_max_str_digits w ≤ Z.abs n)%Z.
Proof.
  intros Hl. unfold Run.refused.
  rewrite <- (DigitFacts.exceeds_limit_spec _ n Hl).
  destruct (n =? 0)%Z eqn:E; [|done].
  apply Z.eqb_eq in E as ->. split; [done |].
  rewrite (DigitFacts.exceeds_limit_spec _ 0%Z Hl). intros H.
  unfold int_str_threshold in Hl.
  assert (0 < 10 ^ int_max_str_digits w)%Z
    by (apply Z.pow_pos_nonneg; lia).
  simpl in H. lia.
Qed.

(** The conversion is made for no [max_length], for [0], and on an
    interpreter with no digit limit. *)
Lemma refused_never (max_length : option Z) (w : World) :
  max_length = None ∨ max_length = Some 0%Z ∨ int_max_str_digits w = 0%Z →
  Run.refused w max_length = false.
Proof.
  intros [-> | [-> | H]]; [done | done |].
  destruct max_length as [n|]; [|done]. unfold Run.refused, exceeds_limit.
  rewrite H. simpl. by rewrite andb_false_r, andb_false_r.
Qed.

(** It is made as well for a [max_length] below [10 ^ limit] in absolute
    value. *)
Lemma converted (max_length : option Z) (w : World) :
  max_length = None ∨ max_length = Some 0%Z ∨ int_max_str_digits w = 0%Z
  ∨ (∃ n, max_length = Some n
          ∧ (int_str_threshold ≤ int_max_str_digits w)%Z
          ∧ (Z.abs n < 10 ^ int_max_str_digits w)%Z) →
  Run.refused w max_length = false.
Proof.
  intros [H | [H | [H | (n & -> & Hl & Hn)]]];
    [apply refused_never; auto .. |].
  destruct (Run.refused w (Some n)) eqn:E; [|done].
  apply (refused_spec w n Hl) in E. lia.
Qed.

(** A refused conversion ends [summarize] before anything is sent. *)
Lemma summarize_refused (p : LLMProvider) (text : string)
    (max_length : option Z) (w : World) :
  Run.refused w max_length = true →
  summarize p text max_length w
  = ([], Raise (int_str_error (int_max_str_digits w))).
Proof.
  intros H.
  destruct p; unfold summarize, OllamaProvider_summarize,
    OpenAIProvider_summarize, AnthropicProvider_summarize, bind;
    by rewrite format_clause_run, H.
Qed.

(** After the conversion, each variant sends its one request. *)
Lemma OllamaProvider_summarize_run (model text : string)
    (max_length : option Z) (w : World) :
  Run.refused w max_length = false →
  OllamaProvider_summarize model text max_length w
  = let req := ollama_request model text max_length in
    ([OllamaGenerate req],
     match ollama_generate w req with
     | Return r => Return (strip (response r))
     | Raise e => Raise e
     end).
Proof.
  intros H. unfold OllamaProvider_summarize, bind.
  rewrite format_clause_run, H. unfold call, ret. simpl.
  by destruct (ollama_generate w _).
Qed.

Lemma OpenAIProvider_summarize_run (model : string) (client : Client)
    (text : string) (max_length : option Z) (w : World) :
  Run.refused w max_length = false →
  OpenAIProvider_summarize model client text max_length w
  = let req := openai_request model text max_length in
    ([ChatCompletionsCreate client req],
     match chat_completions_create w client req with
     | Return r =>
         match choices r with
         | [] => Raise (Exc IndexError "list index out of range")
         | None :: _ =>
             Raise (Exc AttributeError
                      "'NoneType' object has no attribute 'strip'")
         | Some c :: _ => Return (strip c)
         end
     | Raise e => Raise e
     end).
Proof.
  intros H. unfold OpenAIProvider_summarize, bind.
  rewrite format_clause_run, H. unfold call, ret, raise. simpl.
  destruct (chat_completions_create w _ _) as [[[|[c|] ?]]|]; done.
Qed.

Lemma AnthropicProvider_summarize_run (model : string) (client : Client)
    (text : string) (max_length : option Z) (w : World) :
  Run.refused w max_length = false →
  AnthropicProvider_summarize model client text max_length w
  = let req := anthropic_request model text max_length in
    ([MessagesCreate client req],
     match messages_create w client req with
     | Return r =>
         match blocks r with
         | [] => Raise (Exc IndexError "list index out of range")
         | OtherBlock cls :: _ =>
             Raise (Exc AttributeError
                      ("'" +:+ cls +:+ "' object has no attribute 'text'"))
         | TextBlock t :: _ => Return (strip t)
         end
     | Raise e => Raise e
     end).
Proof.
  intros H. unfold AnthropicProvider_summarize, bind.
  rewrite format_clause_run, H. unfold call, ret, raise. simpl.
  destruct (messages_create w _ _) as [[[|[t|cls] ?]]|]; done.
Qed.

(** The words of the clause have no line feed: an occurrence lies within
    one line. *)
Lemma length_clause_one_line : ¬ occurs (String "010"%char "") length_clause.
Proof. apply contains_false. reflexivity. Qed.

Ltac not_in_line H :=
  exfalso; revert H; apply contains_false; reflexivity.

Ltac split_lines H :=
  repeat (apply (occurs_split _ _ _ _ length_clause_one_line) in H
            as [H | H]; [try not_in_line H | try not_in_line H]).

(** Without [max_length] the clause is in the prompt only if the
    transcript has it. *)
Lemma ollama_prompt_None (text : string) :
  occurs length_clause (ollama_prompt text None) → occurs length_clause text.
Proof.
  intros H.
  change (ollama_prompt text None)
    with ("Please provide a concise summary of the following transcript."
          +:+ String "010"
            ("Focus on the main points and key insights."
             +:+ String "010"
               ("" +:+ String "010"
                  ("TRANSCRIPT:"
                   +:+ String "010"
                     (text +:+ String "010"
                        ("" +:+ String "010" "SUMMARY:")))))) in H.
  split_lines H. exact H.
Qed.

Lemma openai_user_message_None (text : string) :
  occurs length_clause (openai_user_message text None) →
  occurs length_clause text.
Proof.
  intros H.
  change (openai_user_message text None)
    with ("Please summarize the following transcript:"
          +:+ String "010" ("" +:+ String "010" text)) in H.
  split_lines H. exact H.
Qed.

Lemma anthropic_user_message_None_clause (text : string) :
  occurs length_clause (anthropic_user_message text None) →
  occurs length_clause text.
Proof.
  intros H.
  change (anthropic_user_message text None)
    with ("Here is the transcript to summarize:"
          +:+ String "010" ("" +:+ String "010" text)) in H.
  split_lines H. exact H.
Qed.

(** C6. For every variant and text, the prompt or user message sent with
    [max_length=50] is the one sent with [max_length=None] followed by a
    clause that has the words of the length constraint and [50]; the one
    sent with [max_length=None] has the words of the constraint only where
    the transcript itself has them. *)
Theorem summarize_length_clause (p : LLMProvider) (text : string)
    (w : World) :
  ∃ base clause,
    prompt_of <$> (summarize p text None w).1 = [Some base]
    ∧ prompt_of <$> (summarize p text (Some 50%Z) w).1
      = [Some (base +:+ clause)]
    ∧ occurs (length_clause +:+ " 50 words") clause
    ∧ (occurs length_clause base → occurs length_clause text).
Proof.
  destruct p as [model | model key client | model key client].
  - exists (ollama_prompt text None),
      (nl +:+ "(Please keep the summary under 50 words)").
    split_and!.
    + unfold summarize, OllamaProvider_summarize, bind, call. simpl.
      by destruct (ollama_generate w _).
    + unfold summarize, OllamaProvider_summarize, bind, call. simpl.
      by destruct (ollama_generate w _).
    + apply contains_occurs. reflexivity.
    + apply ollama_prompt_None.
  - exists (openai_user_message text None),
      (nl +:+ nl +:+ "Keep the summary under 50 words.").
    split_and!.
    + unfold summarize, OpenAIProvider_summarize, bind, call. simpl.
      destruct (chat_completions_create w _ _) as [[[|[c|] ?]]|]; done.
    + unfold summarize, OpenAIProvider_summarize, bind, call. simpl.
      destruct (chat_completions_create w _ _) as [[[|[c|] ?]]|]; done.
    + apply contains_occurs. reflexivity.
    + apply openai_user_message_None.
  - exists (anthropic_user_message text None),
      (nl +:+ nl +:+ "Keep the summary under 50 words.").
    split_and!.
    + unfold summarize, AnthropicProvider_summarize, bind, call. simpl.
      destruct (messages_create w _ _) as [[[|[t|cls] ?]]|]; done.
    + unfold summarize, AnthropicProvider_summarize, bind, call. simpl.
      destruct (messages_create w _ _) as [[[|[t|cls] ?]]|]; done.
    + apply contains_occurs. reflexivity.
    + apply anthropic_user_message_None_clause.
Qed.

(** What is sent without [max_length], for each variant. *)
Lemma summarize_None_prompt (p : LLMProvider) (text : string) (w : World) :
  ∃ base,
    prompt_of <$> (summarize p text None w).1 = [Some base]
    ∧ (occurs length_clause base → occurs length_clause text).
Proof.
  destruct p as [model | model key client | model key client].
  - exists (ollama_prompt text None). split; [|apply ollama_prompt_None].
    unfold summarize, OllamaProvider_summarize, bind, call. simpl.
    by destruct (ollama_generate w _).
  - exists (openai_user_message text None).
    split; [|apply openai_user_message_None].
    unfold summarize, OpenAIProvider_summarize, bind, call. simpl.
    destruct (chat_completions_create w _ _) as [[[|[c|] ?]]|]; done.
  - exists (anthropic_user_message text None).
    split; [|apply anthropic_user_message_None_clause].
    unfold summarize, AnthropicProvider_summarize, bind, call. simpl.
    destruct (messages_create w _ _) as [[[|[t|cls] ?]]|]; done.
Qed.

(** C9. For every variant, [max_length=0] is treated as no [max_length]:
    the run is the one of [max_length=None], and the prompt or message
    sent has the words of a length clause only where the transcript itself
    has them. *)
Theorem summarize_zero_is_None (p : LLMProvider) (text : string)
    (w : World) :
  summarize p text (Some 0%Z) w = summarize p text None w
  ∧ ∃ base,
      prompt_of <$> (summarize p text (Some 0%Z) w).1 = [Some base]
      ∧ (occurs length_clause base → occurs length_clause text).
Proof.
  assert (summarize p text (Some 0%Z) w = summarize p text None w) as E
    by (by destruct p).
  split; [exact E |]. rewrite E. apply summarize_None_prompt.
Qed.

(** *** The factory *)

(** The selector: a true explicit argument is taken as it is. *)
Lemma resolve_explicit (s : string) (w : World) :
  s ≠ "" → resolve_provider_name (Some s) w = ([], Return s).
Proof. by destruct s. Qed.

(** With no explicit argument, or a false one, the selector is the value
    of [SUMMARY_PROVIDER], or ["ollama"] when it is not set, in lower
    case. *)
Lemma resolve_default (pn : option string) (w : World) :
  pn = None ∨ pn = Some "" →
  resolve_provider_name pn w
  = ([Getenv "SUMMARY_PROVIDER"],
     Return (lower (default "ollama" (environ w !! "SUMMARY_PROVIDER")))).
Proof.
  intros [-> | ->]; unfold resolve_provider_name, or_str, bind,
    getenv_default, call, ret; simpl;
    by destruct (environ w !! "SUMMARY_PROVIDER").
Qed.

Lemma get_provider_unknown_resolved (pn : option string)
    (kwargs : gmap string string) (w : World) (t : list event)
    (name : string) :
  resolve_provider_name pn w = (t, Return name) →
  name ∉ known_providers →
  get_provider pn kwargs w = (t, Raise (UnknownProvider name)).
Proof.
  intros Hr Hn. unfold get_provider, bind. rewrite Hr.
  unfold known_providers in Hn.
  rewrite !not_elem_of_cons in Hn. destruct Hn as (H1 & H2 & H3 & _).
  rewrite !decide_False by done.
  unfold raise, UnknownProvider. by rewrite (right_id_L [] (++)).
Qed.

(** C1, the explicit argument: the selector given as [OLLAMA] is compared
    as it is written and is no provider; the same value read from
    [SUMMARY_PROVIDER] is put in lower case first and gives the local
    variant. *)
Theorem get_provider_explicit_upper_case (kwargs : gmap string string)
    (w : World) :
  get_provider (Some "OLLAMA") kwargs w
  = ([], Raise (UnknownProvider "OLLAMA"))
  ∧ get_provider None ∅
      (Demo.world {[ "SUMMARY_PROVIDER" := "OLLAMA" ]} false
         (Return []) "")
    = ([Getenv "SUMMARY_PROVIDER"; Getenv "OLLAMA_MODEL"],
       Return (OllamaProvider "llama3.2")).
Proof.
  split.
  - apply get_provider_unknown_resolved; [done |].
    unfold known_providers. rewrite !not_elem_of_cons.
    split_and!; try discriminate. apply not_elem_of_nil.
  - reflexivity.
Qed.

(** With no selector and no [SUMMARY_PROVIDER] the local variant is
    built. *)
Lemma get_provider_fallback (kwargs : gmap string string) (w : World) :
  environ w !! "SUMMARY_PROVIDER" = None →
  ∃ model,
    get_provider None kwargs w
    = ([Getenv "SUMMARY_PROVIDER"]
         ++ (if decide (truthy (kwargs !! "model_name") = true)
             then [] else [Getenv "OLLAMA_MODEL"]),
       Return (OllamaProvider model)).
Proof.
  intros He. unfold get_provider, bind.
  rewrite (resolve_default None w) by (by left). rewrite He. simpl.
  unfold or_str, truthy.
  destruct (kwargs !! "model_name") as [[|c m]|]; simpl; by eexists.
Qed.

(** C8. A selector outside the closed set, be it the explicit argument or
    the one read from the environment, makes [get_provider] fail with
    [UnknownProvider] of that selector; nothing is imported and no client
    is constructed. *)
Theorem get_provider_unknown (pn : option string)
    (kwargs : gmap string string) (w : World) :
  (∀ s, pn = Some s → s ≠ "" → s ∉ known_providers →
        get_provider pn kwargs w = ([], Raise (UnknownProvider s)))
  ∧ (∀ s, pn = None ∨ pn = Some "" →
          s = lower (default "ollama" (environ w !! "SUMMARY_PROVIDER")) →
          s ∉ known_providers →
          get_provider pn kwargs w
          = ([Getenv "SUMMARY_PROVIDER"], Raise (UnknownProvider s))).
Proof.
  split.
  - intros s -> Hs Hn.
    by apply get_provider_unknown_resolved; [apply resolve_explicit |].
  - intros s Hpn -> Hn.
    by apply get_provider_unknown_resolved; [apply resolve_default |].
Qed.

Lemma get_provider_unknown_witness :
  get_provider (Some "unknown-x") ∅
    (Demo.world ∅ true (Return []) "")
  = ([], Raise (UnknownProvider "unknown-x")).
Proof.
  refine (proj1 (get_provider_unknown (Some "unknown-x") ∅
                   (Demo.world ∅ true (Return []) ""))
                "unknown-x" eq_refl _ _).
  - discriminate.
  - unfold known_providers. rewrite !not_elem_of_cons.
    split_and!; try discriminate. apply not_elem_of_nil.
Defined.

(** *** The hosted constructors *)

Lemma or_opt_true (a : option string) (b : M (option string)) (w : World) :
  truthy a = true → or_opt a b w = ([], Return a).
Proof. unfold or_opt. by intros ->. Qed.

Lemma or_opt_false (a : option string) (b : M (option string)) (w : World) :
  a = None ∨ a = Some "" → or_opt a b w = b w.
Proof. by intros [-> | ->]. Qed.

(** C4 as it is written fails: an explicit credential does not make the
    construction succeed when the SDK of the variant is not installed, and
    an explicit empty credential is no credential: the environment is
    read. *)
Lemma hosted_explicit_credential_may_fail :
  OpenAIProvider_init "gpt-3.5-turbo" (Some "sk-test")
    (Demo.world ∅ false (Return []) "")
  = ([Import "openai"],
     Raise (Exc ImportError "OpenAI package is required for OpenAIProvider. Install with 'poetry add openai'."))
  ∧ AnthropicProvider_init "claude-3-haiku-20240307" (Some "sk-test")
      (Demo.world ∅ false (Return []) "")
    = ([Import "anthropic"],
       Raise (Exc ImportError "Anthropic package is required for AnthropicProvider. Install with 'poetry add anthropic'."))
  ∧ OpenAIProvider_init "gpt-3.5-turbo" (Some "")
      (Demo.world ∅ true (Return []) "")
    = ([Getenv "OPENAI_API_KEY"],
       Raise (MissingCredential "OpenAI" "OPENAI_API_KEY")).
Proof. split_and!; reflexivity. Qed.

(** C4, amended. With no credential argument (or an empty one) and the
    variable of the variant unset (or empty), the construction fails with
    [MissingCredential] after reading that variable and before anything is
    imported, constructed or sent. With a non-empty explicit credential
    the environment is not read: the client is constructed with that
    credential when the SDK of the variant can be imported, and
    [ImportError] is raised when it cannot. *)
Theorem hosted_credential (model : string) (api_key : option string)
    (w : World) :
  (api_key = None ∨ api_key = Some "" →
   environ w !! "OPENAI_API_KEY" = None
   ∨ environ w !! "OPENAI_API_KEY" = Some "" →
   OpenAIProvider_init model api_key w
   = ([Getenv "OPENAI_API_KEY"],
      Raise (MissingCredential "OpenAI" "OPENAI_API_KEY")))
  ∧ (api_key = None ∨ api_key = Some "" →
     environ w !! "ANTHROPIC_API_KEY" = None
     ∨ environ w !! "ANTHROPIC_API_KEY" = Some "" →
     AnthropicProvider_init model api_key w
     = ([Getenv "ANTHROPIC_API_KEY"],
        Raise (MissingCredential "Anthropic" "ANTHROPIC_API_KEY")))
  ∧ (∀ k, api_key = Some k → k ≠ "" →
          OpenAIProvider_init model api_key w
          = let c := {| sdk := "openai"; credential := k |} in
            if importable w "openai"
            then ([Import "openai"; NewClient c],
                  Return (OpenAIProvider model k c))
            else ([Import "openai"],
                  Raise (Exc ImportError "OpenAI package is required for OpenAIProvider. Install with 'poetry add openai'.")))
  ∧ (∀ k, api_key = Some k → k ≠ "" →
          AnthropicProvider_init model api_key w
          = let c := {| sdk := "anthropic"; credential := k |} in
            if importable w "anthropic"
            then ([Import "anthropic"; NewClient c],
                  Return (AnthropicProvider model k c))
            else ([Import "anthropic"],
                  Raise (Exc ImportError "Anthropic package is required for AnthropicProvider. Install with 'poetry add anthropic'."))).
Proof.
  split_and!.
  - intros Hk He. unfold OpenAIProvider_init, bind.
    rewrite (or_opt_false _ _ _ Hk). unfold getenv, call. simpl.
    by destruct He as [-> | ->].
  - intros Hk He. unfold AnthropicProvider_init, bind.
    rewrite (or_opt_false _ _ _ Hk). unfold getenv, call. simpl.
    by destruct He as [-> | ->].
  - intros k -> Hk. unfold OpenAIProvider_init, bind.
    rewrite or_opt_true by (by destruct k).
    destruct k as [|x k]; [done |]. unfold import_client, bind, call. simpl.
    by destruct (importable w "openai").
  - intros k -> Hk. unfold AnthropicProvider_init, bind.
    rewrite or_opt_true by (by destruct k).
    destruct k as [|x k]; [done |]. unfold import_client, bind, call. simpl.
    by destruct (importable w "anthropic").
Qed.

Lemma hosted_credential_witness :
  OpenAIProvider_init "gpt-3.5-turbo" None
    (Demo.world ∅ true (Return []) "")
  = ([Getenv "OPENAI_API_KEY"],
     Raise (MissingCredential "OpenAI" "OPENAI_API_KEY"))
  ∧ AnthropicProvider_init "claude-3-haiku-20240307" (Some "sk-test")
      (Demo.world ∅ true (Return []) "")
    = ([Import "anthropic";
        NewClient {| sdk := "anthropic"; credential := "sk-test" |}],
       Return (AnthropicProvider "claude-3-haiku-20240307" "sk-test"
                 {| sdk := "anthropic"; credential := "sk-test" |})).
Proof.
  split.
  - refine (proj1 (hosted_credential "gpt-3.5-turbo" None
                     (Demo.world ∅ true (Return []) "")) _ _).
    + by left.
    + left. reflexivity.
  - refine (proj2 (proj2 (proj2
              (hosted_credential "claude-3-haiku-20240307" (Some "sk-test")
                 (Demo.world ∅ true (Return []) ""))))
              "sk-test" eq_refl _).
    discriminate.
Defined.

(** *** summarize_text *)

(** C7. [summarize_text] is [get_provider] followed by the [summarize] of
    the provider it returned, and fails as [get_provider] does. Where the
    interpreter makes the conversion of [max_length] (always for [None],
    for [0], with no digit limit, and for a [max_length] below
    [10 ^ limit] in absolute value), the [summarize] of each
    variant returns the text its backend generated without the white space
    at its ends, and with a local backend that generates [x],
    [summarize_text] with the local selector returns [x] without the white
    space at its ends: [X] for [X]. Where the conversion is refused,
    [summarize] raises the interpreter's [ValueError] and no backend is
    asked. *)
Theorem summarize_text_composition (text : string) (pn : option string)
    (max_length : option Z) (kwargs : gmap string string) (w : World) :
  (∀ t p, get_provider pn kwargs w = (t, Return p) →
          summarize_text text pn max_length kwargs w
          = (t ++ (summarize p text max_length w).1,
             (summarize p text max_length w).2))
  ∧ (∀ t e, get_provider pn kwargs w = (t, Raise e) →
            summarize_text text pn max_length kwargs w = (t, Raise e))
  ∧ (Run.refused w max_length = false →
     (∀ model r,
        ollama_generate w (ollama_request model text max_length) = Return r →
        ∃ s, (summarize (OllamaProvider model) text max_length w).2 = Return s
             ∧ trimmed (response r) s)
     ∧ (∀ model key c r x rest,
          chat_completions_create w c (openai_request model text max_length)
          = Return r →
          choices r = Some x :: rest →
          ∃ s, (summarize (OpenAIProvider model key c) text max_length w).2
               = Return s
               ∧ trimmed x s)
     ∧ (∀ model key c r x rest,
          messages_create w c (anthropic_request model text max_length)
          = Return r →
          blocks r = TextBlock x :: rest →
          ∃ s, (summarize (AnthropicProvider model key c) text max_length w).2
               = Return s
               ∧ trimmed x s)
     ∧ (∀ x, (∀ req, ollama_generate w req = Return {| response := x |}) →
             ∃ s, (summarize_text text (Some "ollama") max_length kwargs w).2
                  = Return s
                  ∧ trimmed x s ∧ (x = "X" → s = "X")))
  ∧ (Run.refused w max_length = true →
     ∀ p, summarize p text max_length w
          = ([], Raise (int_str_error (int_max_str_digits w))))
  ∧ (max_length = None ∨ max_length = Some 0%Z
     ∨ int_max_str_digits w = 0%Z
     ∨ (∃ n, max_length = Some n
             ∧ (int_str_threshold ≤ int_max_str_digits w)%Z
             ∧ (Z.abs n < 10 ^ int_max_str_digits w)%Z) →
     Run.refused w max_length = false).
Proof.
  split_and!; [| | | | apply converted].
  - intros t p H. unfold summarize_text, bind. rewrite H.
    by destruct (summarize p text max_length w).
  - intros t e H. unfold summarize_text, bind. by rewrite H.
  - intros Hc. split_and!.
    + intros model r H. exists (strip (response r)).
      split; [|apply strip_trimmed].
      unfold summarize. rewrite OllamaProvider_summarize_run by done.
      simpl. by rewrite H.
    + intros model key c r x rest H Hx. exists (strip x).
      split; [|apply strip_trimmed].
      unfold summarize. rewrite OpenAIProvider_summarize_run by done.
      simpl. by rewrite H, Hx.
    + intros model key c r x rest H Hx. exists (strip x).
      split; [|apply strip_trimmed].
      unfold summarize. rewrite AnthropicProvider_summarize_run by done.
      simpl. by rewrite H, Hx.
    + intros x H. exists (strip x).
      split_and!; [| apply strip_trimmed | by intros ->].
      unfold summarize_text, get_provider, bind.
      rewrite resolve_explicit by done. simpl.
      unfold or_str, getenv_default, OllamaProvider_init, call, ret.
      destruct (kwargs !! "model_name") as [[|c m]|]; simpl;
        rewrite OllamaProvider_summarize_run by done; simpl;
        by rewrite H.
  - intros Hr p. by apply summarize_refused.
Qed.

(** A local backend that generates [X] between white space, asked with
    [max_length=50]. *)
Lemma summarize_text_composition_witness :
  Run.refused (Demo.world ∅ false (Return []) ("  X " +:+ nl)) (Some 50%Z)
  = false
  ∧ ∃ s, (summarize_text "Hello world" (Some "ollama") (Some 50%Z) ∅
            (Demo.world ∅ false (Return []) ("  X " +:+ nl))).2
         = Return s
         ∧ trimmed ("  X " +:+ nl) s.
Proof.
  assert (Run.refused (Demo.world ∅ false (Return []) ("  X " +:+ nl))
            (Some 50%Z) = false) as Hc by reflexivity.
  split; [exact Hc |].
  destruct (proj2 (proj2 (proj2 (proj1 (proj2 (proj2
              (summarize_text_composition "Hello world" (Some "ollama")
                 (Some 50%Z) ∅
                 (Demo.world ∅ false (Return []) ("  X " +:+ nl)))))
              Hc)))
              ("  X " +:+ nl) (λ _, eq_refl)) as (s & Hs & Ht & _).
  by exists s.
Defined.

(** The white space around what the backend generated is removed. *)
Example summarize_text_trims :
  summarize_text "Hello world" None (Some 50%Z) ∅
    (Demo.world ∅ false (Return []) (" A summary." +:+ nl))
  = ([Getenv "SUMMARY_PROVIDER"; Getenv "OLLAMA_MODEL";
      OllamaGenerate (ollama_request "llama3.2" "Hello world" (Some 50%Z))],
     Return "A summary.").
Proof. reflexivity. Qed.

End SummarizerProps.

(** ** Further properties of transcript.py *)

Module TranscriptExtras.

Import Str Spec StrFacts MatchFacts Transcript TranscriptProps.

#[local] Arguments String.append !_ _ / : simpl nomatch.

Lemma marker_domain (m pre tail : string) :
  m ∈ watch_like ∨ m ∈ shorts → has_domain_marker (pre +:+ m +:+ tail).
Proof.
  unfold watch_like, shorts, has_domain_marker. intros [Hm | Hm];
    repeat (apply elem_of_cons in Hm as [-> | Hm]);
    try (by apply elem_of_nil in Hm);
    first [ left; eexists pre, _; reflexivity
          | right; eexists pre, _; reflexivity ].
Qed.

Lemma searched_decomposed (url g : string) :
  searched url g →
  ∃ pre m rest,
    url = pre +:+ m +:+ g +:+ rest ∧ (m ∈ watch_like ∨ m ∈ shorts)
    ∧ g ≠ "" ∧ delimiter_free g ∧ stops rest.
Proof.
  intros [(pre & (suf & m & -> & Hm & rest & -> & ? & ? & ?) & _)
         | [_ (pre & (suf & m & -> & Hm & rest & -> & ? & ? & ?) & _)]];
    exists pre, m, rest; split_and!; auto.
Qed.

Lemma extract_video_id_Return (url g : string) :
  extract_video_id url = Return g ↔ searched url g.
Proof.
  unfold extract_video_id. rewrite patterns_spec.
  rewrite (proj1 (first_match_searched url) g).
  destruct (first_match [watch_like; shorts] url); split; congruence.
Qed.

(** X1. What [extract_video_id] returns is never empty and has no [&],
    newline, [?] or [#]; it stands in the URL right after one of the six
    markers and is followed by the end of the URL or by one of the four
    characters; a URL it returns for has a domain marker. *)
Theorem extract_video_id_result (url g : string) :
  extract_video_id url = Return g →
  g ≠ "" ∧ delimiter_free g ∧ has_domain_marker url
  ∧ ∃ pre m rest,
      url = pre +:+ m +:+ g +:+ rest
      ∧ (m ∈ watch_like ∨ m ∈ shorts) ∧ stops rest.
Proof.
  intros H. apply extract_video_id_Return, searched_decomposed in H
    as (pre & m & rest & -> & Hm & Hg & Hfree & Hstop).
  split_and!; [done | done | by apply marker_domain |].
  by exists pre, m, rest.
Qed.

Lemma extract_video_id_result_witness :
  "TdAAUoJ065o" ≠ "" ∧ delimiter_free "TdAAUoJ065o"
  ∧ has_domain_marker "https://youtu.be/TdAAUoJ065o?t=42".
Proof.
  destruct (extract_video_id_result
              "https://youtu.be/TdAAUoJ065o?t=42" "TdAAUoJ065o" eq_refl)
    as (H1 & H2 & H3 & _).
  exact (conj H1 (conj H2 H3)).
Defined.

(** *** What follows the identifier does not matter *)

Lemma marker_no_inner (m a b : string) :
  m ∈ watch_like ∨ m ∈ shorts → a ≠ "" → m ≠ a +:+ "youtu" +:+ b.
Proof.
  intros Hm Ha E. destruct a as [|c a]; [done |].
  unfold watch_like, shorts in Hm. destruct Hm as [Hm | Hm];
    repeat (apply elem_of_cons in Hm as [-> | Hm]);
    try (by apply elem_of_nil in Hm);
    simpl in E; injection E as _ E;
    match type of E with
    | ?t = _ =>
        apply (proj1 (contains_false "youtu" t));
          [reflexivity | exists a, b; exact E]
    end.
Qed.

Lemma stops_app (rest tail : string) (c : ascii) :
  delimiter c → stops rest → stops (rest +:+ String c tail).
Proof.
  intros Hc [-> | (x & r & -> & Hx)]; right.
  - by exists c, tail.
  - by exists x, (r +:+ String c tail).
Qed.

Lemma first_shape_suffix (markers : list string) (url g tail : string)
    (c : ascii) :
  (∀ m, m ∈ markers → m ∈ watch_like ∨ m ∈ shorts) →
  delimiter c → first_shape markers url g →
  first_shape markers (url +:+ String c tail) g.
Proof.
  intros Hall Hc
    (pre & (suf & m & -> & Hm & rest & -> & Hg & Hfree & Hstop) & Hmin).
  exists pre. split.
  - exists ((m +:+ g +:+ rest) +:+ String c tail), m.
    split_and!; [by rewrite app_assoc | done |].
    exists (rest +:+ String c tail).
    split_and!; [by rewrite !app_assoc | done | done | by apply stops_app].
  - intros pre' g' Hlt (suf' & m' & E & Hm' & rest' & -> & Hg' & Hfree' & _).
    rewrite app_assoc in E.
    apply app_split in E as [(d & -> & E) | (d & -> & _)];
      [|rewrite length_app in Hlt; lia].
    assert (d ≠ "") as Hd
      by (intros ->; rewrite app_nil_r in Hlt; lia).
    destruct (marker_begins m (Hall m Hm)) as [x ->].
    assert (m' +:+ (g' +:+ rest')
            = (d +:+ "youtu") +:+ (x +:+ g +:+ rest +:+ String c tail))
      as E' by (rewrite E, !app_assoc; done).
    apply app_split in E' as [(e & E1 & _) | (e & E1 & E2)].
    + apply (marker_no_inner m' d e (Hall m' Hm') Hd).
      by rewrite E1, app_assoc.
    + destruct e as [|c0 e].
      * rewrite app_nil_r in E1.
        apply (marker_no_inner m' d "" (Hall m' Hm') Hd). by rewrite <- E1.
      * destruct g' as [|c1 g'']; [done |]. simpl in E2.
        injection E2 as -> _.
        apply delimiter_free_cons in Hfree' as [Hc0 _].
        apply is_delim_not_delimiter in Hc0.
        apply (Hmin pre' (span_group (String c0 (e +:+ x +:+ g +:+ rest))).1
                 Hlt).
        exists (m' +:+ String c0 (e +:+ x +:+ g +:+ rest)), m'.
        split_and!; [|done|].
        -- rewrite !app_assoc. f_equal.
           change (m' +:+ String c0 (e +:+ x +:+ g +:+ rest))
             with (m' +:+ String c0 e +:+ x +:+ g +:+ rest).
           rewrite <- (app_assoc m'), <- E1, !app_assoc. done.
        -- apply shape_computed. eexists. rewrite strip_prefix_app.
           split_and!; [done | done |]. simpl. rewrite Hc0.
           by destruct (span_group (e +:+ x +:+ g +:+ rest)).
Qed.

(** X2. When the URL has a watch-like shape, anything added after it
    behind an [&], a newline, a [?] or a [#] leaves the identifier as it
    is. *)
Theorem extract_video_id_trailing (url g tail : string) (c : ascii) :
  first_shape watch_like url g → delimiter c →
  extract_video_id url = Return g
  ∧ extract_video_id (url +:+ String c tail) = Return g.
Proof.
  intros H Hc. split; apply extract_video_id_Return; left; [done |].
  apply first_shape_suffix; try done. intros m ?. by left.
Qed.

Lemma extract_video_id_trailing_witness :
  extract_video_id "https://www.youtube.com/watch?v=TdAAUoJ065o"
  = Return "TdAAUoJ065o"
  ∧ extract_video_id
      "https://www.youtube.com/watch?v=TdAAUoJ065o&list=youtube.com/shorts/x"
    = Return "TdAAUoJ065o".
Proof.
  refine (extract_video_id_trailing
            "https://www.youtube.com/watch?v=TdAAUoJ065o" "TdAAUoJ065o"
            "list=youtube.com/shorts/x" "&"%char _ _).
  - apply re_search_Some. reflexivity.
  - unfold delimiter. by left.
Defined.

(** The same does not hold of a shorts URL: the first pattern is searched
    through what was added. *)
Example extract_video_id_trailing_shorts :
  extract_video_id "https://youtube.com/shorts/abc" = Return "abc"
  ∧ extract_video_id "https://youtube.com/shorts/abc?ref=youtu.be/xyz"
    = Return "xyz".
Proof. split; reflexivity. Qed.

(** *** get_transcript and get_transcript_text as a caller sees them *)

Lemma get_transcript_text_run (input : string) (languages : list string)
    (w : World) :
  get_transcript_text input languages w
  = match get_transcript input languages w with
    | (t, Return segs) => (t, Return (join " " (map text segs)))
    | (t, Raise e) => (t, Raise e)
    end.
Proof.
  unfold get_transcript_text, bind, ret.
  destruct (get_transcript input languages w) as [t [segs | e]]; [|done].
  by rewrite (right_id_L [] (++)).
Qed.

Lemma get_transcript_cases (input : string) (languages : list string)
    (w : World) :
  (has_domain_marker input ∧ no_shape input
   ∧ get_transcript input languages w = ([], Raise (InvalidReference input)))
  ∨ ∃ video_id,
      (has_domain_marker input ∧ extract_video_id input = Return video_id
       ∨ ¬ has_domain_marker input ∧ video_id = input)
      ∧ get_transcript input languages w
        = match YouTubeTranscriptApi_get_transcript w video_id languages with
          | Return segs => ([FetchCaptions video_id languages], Return segs)
          | Raise e =>
              ([FetchCaptions video_id languages],
               Raise (if is_Exception (exc_type e)
                      then TranscriptUnavailable (exc_str e) else e))
          end.
Proof.
  destruct (contains "youtube.com" input || contains "youtu.be" input)
    eqn:Hm.
  - apply has_domain_marker_computed in Hm.
    destruct (extract_video_id input) as [video_id | e] eqn:He.
    + right. exists video_id. split; [by left |].
      apply get_transcript_resolved. by left.
    + left. assert (no_shape input) as Hn.
      { apply no_shape_computed. unfold extract_video_id in He.
        by destruct (first_match patterns input). }
      split_and!; [done | done |].
      unfold get_transcript, bind, lift.
      apply has_domain_marker_computed in Hm. rewrite Hm.
      by rewrite (no_shape_raises _ Hn).
  - apply no_domain_marker_computed in Hm. right. exists input.
    split; [by right |]. apply get_transcript_resolved. by right.
Qed.

(** X3. Whatever [get_transcript] or [get_transcript_text] raises is the
    [ValueError] of the extraction, a [ValueError] around the message of
    what the service raised, or something [except Exception] does not
    catch: a caller that handles [ValueError] handles every [Exception]
    of the two. *)
Theorem get_transcript_raises (input : string) (languages : list string)
    (w : World) (t : list event) (e : exception) :
  get_transcript input languages w = (t, Raise e)
  ∨ get_transcript_text input languages w = (t, Raise e) →
  (e = InvalidReference input
   ∨ (∃ cause, e = TranscriptUnavailable cause)
   ∨ is_Exception (exc_type e) = false)
  ∧ (is_Exception (exc_type e) = true → exc_type e = ValueError).
Proof.
  intros H.
  assert (get_transcript input languages w = (t, Raise e)) as Hg.
  { destruct H as [H | H]; [done |]. rewrite get_transcript_text_run in H.
    by destruct (get_transcript input languages w) as [t' [segs | e']];
      simplify_eq. }
  clear H.
  assert (e = InvalidReference input
          ∨ (∃ cause, e = TranscriptUnavailable cause)
          ∨ is_Exception (exc_type e) = false) as Hc.
  { destruct (get_transcript_cases input languages w)
      as [(_ & _ & E) | (video_id & _ & E)]; rewrite E in Hg.
    - injection Hg as _ <-. by left.
    - destruct (YouTubeTranscriptApi_get_transcript w video_id languages)
        as [segs | e']; [done |].
      injection Hg as _ <-. right.
      destruct (is_Exception (exc_type e')) eqn:Hx; [left | by right].
      by eexists. }
  split; [exact Hc |].
  destruct Hc as [-> | [[cause ->] | ->]]; done.
Qed.

Lemma get_transcript_raises_witness :
  get_transcript "TdAAUoJ065o" ["en"]
    (Demo.world ∅ false (Raise Demo.disabled) "")
  = ([FetchCaptions "TdAAUoJ065o" ["en"]],
     Raise (TranscriptUnavailable "Subtitles are disabled for this video"))
  ∧ exc_type (TranscriptUnavailable "Subtitles are disabled for this video")
    = ValueError.
Proof.
  split; [reflexivity |].
  refine (proj2 (get_transcript_raises "TdAAUoJ065o" ["en"]
                   (Demo.world ∅ false (Raise Demo.disabled) "")
                   [FetchCaptions "TdAAUoJ065o" ["en"]]
                   (TranscriptUnavailable
                      "Subtitles are disabled for this video") _) _).
  - left. reflexivity.
  - reflexivity.
Defined.

(** X4. A URL and the identifier it holds give the same run, when the
    identifier has no domain marker of its own. *)
Theorem get_transcript_url_or_id (url video_id : string)
    (languages : list string) (w : World) :
  extract_video_id url = Return video_id →
  ¬ has_domain_marker video_id →
  get_transcript url languages w = get_transcript video_id languages w
  ∧ get_transcript_text url languages w
    = get_transcript_text video_id languages w.
Proof.
  intros He Hn.
  assert (get_transcript url languages w
          = get_transcript video_id languages w) as E.
  { rewrite (get_transcript_resolved url video_id).
    - rewrite (get_transcript_resolved video_id video_id); [done | by right].
    - left. split; [|done]. by apply extract_video_id_result in He as (_&_&?&_). }
  split; [exact E |]. by rewrite !get_transcript_text_run, E.
Qed.

Lemma get_transcript_url_or_id_witness :
  get_transcript_text "https://youtu.be/TdAAUoJ065o?t=42" ["en"]
    (Demo.world ∅ false (Return Demo.segments) "")
  = get_transcript_text "TdAAUoJ065o" ["en"]
      (Demo.world ∅ false (Return Demo.segments) "").
Proof.
  refine (proj2 (get_transcript_url_or_id
                   "https://youtu.be/TdAAUoJ065o?t=42" "TdAAUoJ065o" ["en"]
                   (Demo.world ∅ false (Return Demo.segments) "") _ _)).
  - reflexivity.
  - apply no_domain_marker_computed. reflexivity.
Defined.

(** X5. [get_transcript] and [get_transcript_text] ask the captioning
    service at most once, with the language list they were given, and do
    nothing else outside: no second try after a failure, no environment
    variable read, no backend called. The service is not asked exactly when
    the input has a domain marker and none of the URL shapes. *)
Theorem get_transcript_asks_once (input : string) (languages : list string)
    (w : World) :
  (get_transcript_text input languages w).1
  = (get_transcript input languages w).1
  ∧ ((get_transcript input languages w).1 = []
     ∨ ∃ video_id,
         (get_transcript input languages w).1
         = [FetchCaptions video_id languages])
  ∧ ((get_transcript input languages w).1 = []
     ↔ has_domain_marker input ∧ no_shape input).
Proof.
  split_and!.
  - rewrite get_transcript_text_run.
    by destruct (get_transcript input languages w) as [t [segs | e]].
  - destruct (get_transcript_cases input languages w)
      as [(_ & _ & E) | (video_id & _ & E)]; rewrite E; [by left |].
    right. exists video_id.
    by destruct (YouTubeTranscriptApi_get_transcript w video_id languages).
  - destruct (get_transcript_cases input languages w)
      as [(Hm & Hn & E) | (video_id & Hv & E)]; rewrite E.
    + done.
    + split.
      * by destruct (YouTubeTranscriptApi_get_transcript w video_id languages).
      * intros [Hm Hn]. exfalso. destruct Hv as [[_ He] | [Hv _]]; [|done].
        by rewrite (no_shape_raises _ Hn) in He.
Qed.

End TranscriptExtras.

(** ** Further properties of summarizer.py *)

Module SummarizerExtras.

Import Str Spec StrFacts StripFacts Summarizer Run SummarizerProps.

#[local] Arguments String.append !_ _ / : simpl nomatch.

(** *** The factory, step by step *)

Lemma resolve_run (pn : option string) (w : World) :
  ∃ t name,
    resolve_provider_name pn w = (t, Return name)
    ∧ Forall (λ ev, is_getenv ev = true) t.
Proof.
  destruct pn as [[|c s]|].
  - eexists _, _. split; [apply resolve_default; by right |].
    by repeat constructor.
  - eexists _, _. split; [by apply resolve_explicit |]. constructor.
  - eexists _, _. split; [apply resolve_default; by left |].
    by repeat constructor.
Qed.

Lemma model_run (kwargs : gmap string string) (w : World)
    (variable literal : string) :
  ∃ t,
    or_str (kwargs !! "model_name") (getenv_default variable literal) w
    = (t, Return (chosen_model kwargs w variable literal))
    ∧ Forall (λ ev, is_getenv ev = true) t.
Proof.
  unfold or_str, chosen_model, getenv_default, call, ret.
  destruct (kwargs !! "model_name") as [[|c m]|]; simpl;
    eexists; (split; [reflexivity |]); by repeat constructor.
Qed.

Lemma key_run (kwargs : gmap string string) (w : World) (variable : string) :
  ∃ t,
    or_opt (kwargs !! "api_key") (getenv variable) w
    = (t, Return (chosen_key kwargs w variable))
    ∧ Forall (λ ev, is_getenv ev = true) t.
Proof.
  unfold or_opt, truthy, chosen_key, getenv, call, ret.
  destruct (kwargs !! "api_key") as [[|c k]|]; simpl;
    eexists; (split; [reflexivity |]); by repeat constructor.
Qed.

(** A hosted constructor, by the credential it is given and the one of
    the environment. *)
Lemma OpenAIProvider_init_run (model : string) (key : option string)
    (w : World) :
  OpenAIProvider_init model key w
  = let t := if truthy key then [] else [Getenv "OPENAI_API_KEY"] in
    match (if truthy key then key else environ w !! "OPENAI_API_KEY") with
    | Some k =>
        if is_empty k
        then (t, Raise (MissingCredential "OpenAI" "OPENAI_API_KEY"))
        else
          let c := {| sdk := "openai"; credential := k |} in
          if importable w "openai"
          then (t ++ [Import "openai"; NewClient c],
                Return (OpenAIProvider model k c))
          else (t ++ [Import "openai"],
                Raise (Exc ImportError "OpenAI package is required for OpenAIProvider. Install with 'poetry add openai'."))
    | None => (t, Raise (MissingCredential "OpenAI" "OPENAI_API_KEY"))
    end.
Proof.
  unfold OpenAIProvider_init, or_opt, truthy, getenv, import_client, bind,
    call, ret, raise.
  destruct key as [[|c k]|]; simpl;
    try destruct (environ w !! "OPENAI_API_KEY") as [[|c' k']|]; simpl;
    try destruct (importable w "openai"); reflexivity.
Qed.

Lemma AnthropicProvider_init_run (model : string) (key : option string)
    (w : World) :
  AnthropicProvider_init model key w
  = let t := if truthy key then [] else [Getenv "ANTHROPIC_API_KEY"] in
    match (if truthy key then key else environ w !! "ANTHROPIC_API_KEY") with
    | Some k =>
        if is_empty k
        then (t, Raise (MissingCredential "Anthropic" "ANTHROPIC_API_KEY"))
        else
          let c := {| sdk := "anthropic"; credential := k |} in
          if importable w "anthropic"
          then (t ++ [Import "anthropic"; NewClient c],
                Return (AnthropicProvider model k c))
          else (t ++ [Import "anthropic"],
                Raise (Exc ImportError "Anthropic package is required for AnthropicProvider. Install with 'poetry add anthropic'."))
    | None => (t, Raise (MissingCredential "Anthropic" "ANTHROPIC_API_KEY"))
    end.
Proof.
  unfold AnthropicProvider_init, or_opt, truthy, getenv, import_client, bind,
    call, ret, raise.
  destruct key as [[|c k]|]; simpl;
    try destruct (environ w !! "ANTHROPIC_API_KEY") as [[|c' k']|]; simpl;
    try destruct (importable w "anthropic"); reflexivity.
Qed.

(** The factory, by the selector it resolved. *)
Lemma get_provider_ollama (pn : option string) (kwargs : gmap string string)
    (w : World) (t0 : list event) :
  resolve_provider_name pn w = (t0, Return "ollama") →
  ∃ tm,
    Forall (λ ev, is_getenv ev = true) tm
    ∧ get_provider pn kwargs w
      = (t0 ++ tm,
         Return (OllamaProvider
                   (chosen_model kwargs w "OLLAMA_MODEL" "llama3.2"))).
Proof.
  intros Hr. destruct (model_run kwargs w "OLLAMA_MODEL" "llama3.2")
    as (tm & Em & Hm).
  exists tm. split; [done |].
  unfold get_provider, bind. rewrite Hr. rewrite decide_True by done.
  rewrite Em. unfold OllamaProvider_init, ret.
  by rewrite (right_id_L [] (++)).
Qed.

Lemma get_provider_openai (pn : option string) (kwargs : gmap string string)
    (w : World) (t0 : list event) :
  resolve_provider_name pn w = (t0, Return "openai") →
  ∃ tg,
    Forall (λ ev, is_getenv ev = true) tg
    ∧ get_provider pn kwargs w
      = (t0 ++ tg
           ++ (OpenAIProvider_init
                 (chosen_model kwargs w "OPENAI_MODEL" "gpt-3.5-turbo")
                 (chosen_key kwargs w "OPENAI_API_KEY") w).1,
         (OpenAIProvider_init
            (chosen_model kwargs w "OPENAI_MODEL" "gpt-3.5-turbo")
            (chosen_key kwargs w "OPENAI_API_KEY") w).2).
Proof.
  intros Hr. destruct (model_run kwargs w "OPENAI_MODEL" "gpt-3.5-turbo")
    as (tm & Em & Hm).
  destruct (key_run kwargs w "OPENAI_API_KEY") as (tk & Ek & Hk).
  exists (tm ++ tk). split; [by apply Forall_app |].
  unfold get_provider, bind. rewrite Hr.
  rewrite decide_False by done. rewrite decide_True by done.
  rewrite Em, Ek.
  destruct (OpenAIProvider_init _ _ w) as [ti r]. simpl.
  by rewrite !(assoc_L (++)).
Qed.

Lemma get_provider_anthropic (pn : option string)
    (kwargs : gmap string string) (w : World) (t0 : list event) :
  resolve_provider_name pn w = (t0, Return "anthropic") →
  ∃ tg,
    Forall (λ ev, is_getenv ev = true) tg
    ∧ get_provider pn kwargs w
      = (t0 ++ tg
           ++ (AnthropicProvider_init
                 (chosen_model kwargs w "ANTHROPIC_MODEL"
                    "claude-3-haiku-20240307")
                 (chosen_key kwargs w "ANTHROPIC_API_KEY") w).1,
         (AnthropicProvider_init
            (chosen_model kwargs w "ANTHROPIC_MODEL"
               "claude-3-haiku-20240307")
            (chosen_key kwargs w "ANTHROPIC_API_KEY") w).2).
Proof.
  intros Hr.
  destruct (model_run kwargs w "ANTHROPIC_MODEL" "claude-3-haiku-20240307")
    as (tm & Em & Hm).
  destruct (key_run kwargs w "ANTHROPIC_API_KEY") as (tk & Ek & Hk).
  exists (tm ++ tk). split; [by apply Forall_app |].
  unfold get_provider, bind. rewrite Hr.
  rewrite !decide_False by done. rewrite decide_True by done.
  rewrite Em, Ek.
  destruct (AnthropicProvider_init _ _ w) as [ti r]. simpl.
  by rewrite !(assoc_L (++)).
Qed.

Lemma known_or_not (name : string) :
  name = "ollama" ∨ name = "openai" ∨ name = "anthropic"
  ∨ name ∉ known_providers.
Proof.
  unfold known_providers.
  destruct (decide (name = "ollama")); [by left |].
  destruct (decide (name = "openai")); [by right; left |].
  destruct (decide (name = "anthropic")); [by right; right; left |].
  right; right; right. rewrite !not_elem_of_cons.
  split_and!; try done. apply not_elem_of_nil.
Qed.

Lemma OpenAIProvider_init_log (model : string) (key : option string)
    (w : World) :
  Forall (λ ev, is_getenv ev = true ∨ is_sdk_use ev = true)
    (OpenAIProvider_init model key w).1.
Proof.
  rewrite OpenAIProvider_init_run. simpl.
  destruct (truthy key);
    [destruct key as [k|] | destruct (environ w !! "OPENAI_API_KEY") as [k|]];
    try destruct (is_empty k); try destruct (importable w "openai"); simpl;
    repeat (apply Forall_cons; split); try apply Forall_nil; simpl; auto.
Qed.

Lemma AnthropicProvider_init_log (model : string) (key : option string)
    (w : World) :
  Forall (λ ev, is_getenv ev = true ∨ is_sdk_use ev = true)
    (AnthropicProvider_init model key w).1.
Proof.
  rewrite AnthropicProvider_init_run. simpl.
  destruct (truthy key);
    [destruct key as [k|] | destruct (environ w !! "ANTHROPIC_API_KEY") as [k|]];
    try destruct (is_empty k); try destruct (importable w "anthropic"); simpl;
    repeat (apply Forall_cons; split); try apply Forall_nil; simpl; auto.
Qed.

Lemma Forall_getenv_weaken (t : list event) :
  Forall (λ ev, is_getenv ev = true) t →
  Forall (λ ev, is_getenv ev = true ∨ is_sdk_use ev = true) t.
Proof. intros H. eapply Forall_impl; [exact H |]. simpl. auto. Qed.

(** The selector, read back from the arguments and the environment. *)
Lemma resolve_inv (pn : option string) (w : World) (t0 : list event)
    (name : string) :
  resolve_provider_name pn w = (t0, Return name) ↔
  (pn = Some name ∧ name ≠ "" ∧ t0 = []
   ∨ (pn = None ∨ pn = Some "")
     ∧ lower (default "ollama" (environ w !! "SUMMARY_PROVIDER")) = name
     ∧ t0 = [Getenv "SUMMARY_PROVIDER"]).
Proof.
  destruct pn as [[|c s]|].
  - rewrite resolve_default by (by right). split.
    + intros [= <- <-]. right. auto.
    + intros [(? & ? & ?) | (_ & <- & ->)]; [congruence | done].
  - rewrite resolve_explicit by done. split.
    + intros [= <- <-]. left. auto.
    + intros [([= <-] & _ & ->) | ([? | ?] & _)]; done.
  - rewrite resolve_default by (by left). split.
    + intros [= <- <-]. right. auto.
    + intros [(? & ? & ?) | (_ & <- & ->)]; [congruence | done].
Qed.

(** The calls of [get_provider]. *)
Lemma get_provider_log (pn : option string) (kwargs : gmap string string)
    (w : World) :
  Forall (λ ev, is_getenv ev = true ∨ is_sdk_use ev = true)
    (get_provider pn kwargs w).1.
Proof.
  destruct (resolve_run pn w) as (t0 & name & Hr & H0).
  destruct (known_or_not name) as [-> | [-> | [-> | Hn]]].
  - destruct (get_provider_ollama pn kwargs w t0 Hr) as (tm & Hm & ->).
    apply Forall_getenv_weaken. by apply Forall_app.
  - destruct (get_provider_openai pn kwargs w t0 Hr) as (tg & Hg & ->).
    simpl. rewrite !Forall_app.
    split_and!; [by apply Forall_getenv_weaken.. |].
    apply OpenAIProvider_init_log.
  - destruct (get_provider_anthropic pn kwargs w t0 Hr) as (tg & Hg & ->).
    simpl. rewrite !Forall_app.
    split_and!; [by apply Forall_getenv_weaken.. |].
    apply AnthropicProvider_init_log.
  - rewrite (get_provider_unknown_resolved pn kwargs w t0 name Hr Hn).
    by apply Forall_getenv_weaken.
Qed.

(** X6. [get_provider] reads environment variables, imports a hosted SDK
    and constructs its client, and nothing else: it calls no backend and
    no captioning service. When the selector is the local one, given or
    read from the environment, it always returns the local variant, and
    neither imports a hosted SDK nor constructs a client. *)
Theorem get_provider_constructs_only (pn : option string)
    (kwargs : gmap string string) (w : World) :
  Forall (λ ev, is_getenv ev = true ∨ is_sdk_use ev = true)
    (get_provider pn kwargs w).1
  ∧ (pn = Some "ollama"
     ∨ (pn = None ∨ pn = Some "")
       ∧ lower (default "ollama" (environ w !! "SUMMARY_PROVIDER"))
         = "ollama" →
     (∃ model, (get_provider pn kwargs w).2 = Return (OllamaProvider model))
     ∧ Forall (λ ev, is_getenv ev = true) (get_provider pn kwargs w).1).
Proof.
  split; [apply get_provider_log |].
  - intros Hsel.
    destruct (resolve_run pn w) as (t0 & name & Hr & H0).
    assert (name = "ollama") as ->.
    { apply resolve_inv in Hr.
      destruct Hsel as [Hs | [Hs Hl]], Hr as [(Hp & Hne & _) | (Hp & Hn & _)].
      - congruence.
      - destruct Hp; congruence.
      - destruct Hs; congruence.
      - congruence. }
    destruct (get_provider_ollama pn kwargs w t0 Hr) as (tm & Hm & ->).
    split; [by eexists |]. simpl. by apply Forall_app.
Qed.

Lemma get_provider_constructs_only_witness :
  (∃ model,
     (get_provider None ∅
        (Demo.world {[ "SUMMARY_PROVIDER" := "Ollama" ]} false
           (Return []) "")).2
     = Return (OllamaProvider model))
  ∧ Forall (λ ev, is_getenv ev = true)
      (get_provider None ∅
         (Demo.world {[ "SUMMARY_PROVIDER" := "Ollama" ]} false
            (Return []) "")).1.
Proof.
  refine (proj2 (get_provider_constructs_only None ∅
                   (Demo.world {[ "SUMMARY_PROVIDER" := "Ollama" ]} false
                      (Return []) "")) _).
  right. split; [by left | reflexivity].
Defined.

(** *** What a returned provider holds *)

Lemma chosen_key_cases (kwargs : gmap string string) (w : World)
    (variable : string) :
  truthy (chosen_key kwargs w variable) = true
  ∨ chosen_key kwargs w variable = environ w !! variable.
Proof.
  unfold chosen_key. destruct (kwargs !! "api_key") as [[|c k]|]; auto.
Qed.

Lemma get_provider_returned (pn : option string)
    (kwargs : gmap string string) (w : World) (t : list event)
    (p : LLMProvider) :
  get_provider pn kwargs w = (t, Return p) →
  (∃ t0, resolve_provider_name pn w = (t0, Return (selector_of p)))
  ∧ model_of p
    = chosen_model kwargs w (model_variable p) (model_literal p).
Proof.
  intros H. destruct (resolve_run pn w) as (t0 & name & Hr & H0).
  assert (name = selector_of p
          ∧ model_of p
            = chosen_model kwargs w (model_variable p) (model_literal p))
    as [-> Hmodel].
  { destruct (known_or_not name) as [-> | [-> | [-> | Hn]]].
    - destruct (get_provider_ollama pn kwargs w t0 Hr) as (tm & _ & E).
      rewrite E in H. by injection H as _ <-.
    - destruct (get_provider_openai pn kwargs w t0 Hr) as (tg & _ & E).
      rewrite E in H. injection H as _ H.
      rewrite OpenAIProvider_init_run in H. simpl in H.
      repeat case_match; simplify_eq/=; done.
    - destruct (get_provider_anthropic pn kwargs w t0 Hr) as (tg & _ & E).
      rewrite E in H. injection H as _ H.
      rewrite AnthropicProvider_init_run in H. simpl in H.
      repeat case_match; simplify_eq/=; done.
    - rewrite (get_provider_unknown_resolved pn kwargs w t0 name Hr Hn) in H.
      done. }
  split; [by exists t0 | exact Hmodel].
Qed.

(** X7. A provider that [get_provider] returns is the variant the
    selector names (the argument when it is not empty, else
    [SUMMARY_PROVIDER] or ["ollama"] in lower case), and its model name is
    the [model_name] keyword when it is not empty, else the value of the
    variant's model variable when that is set, be it to the empty string,
    else the variant's literal. *)
Theorem get_provider_model_name (pn : option string)
    (kwargs : gmap string string) (w : World) (t : list event)
    (p : LLMProvider) :
  get_provider pn kwargs w = (t, Return p) →
  (pn = Some (selector_of p)
   ∨ (pn = None ∨ pn = Some "")
     ∧ lower (default "ollama" (environ w !! "SUMMARY_PROVIDER"))
       = selector_of p)
  ∧ model_of p
    = match kwargs !! "model_name" with
      | Some m =>
          if is_empty m
          then default (model_literal p) (environ w !! model_variable p)
          else m
      | None => default (model_literal p) (environ w !! model_variable p)
      end.
Proof.
  intros H.
  apply get_provider_returned in H as [[t0 Hr] Hmodel].
  split; [|exact Hmodel].
  apply resolve_inv in Hr as [(-> & _) | (? & ? & _)]; auto.
Qed.

Lemma get_provider_model_name_witness :
  model_of (OllamaProvider "")
  = default "llama3.2"
      (environ (Demo.world {[ "OLLAMA_MODEL" := "" ]} false (Return []) "")
       !! "OLLAMA_MODEL").
Proof.
  refine (proj2 (get_provider_model_name None ∅
                   (Demo.world {[ "OLLAMA_MODEL" := "" ]} false
                      (Return []) "")
                   [Getenv "SUMMARY_PROVIDER"; Getenv "OLLAMA_MODEL"]
                   (OllamaProvider "") _)).
  reflexivity.
Defined.

(** X8. A hosted provider that [get_provider] returns holds a credential
    that is not empty: the [api_key] keyword when it is not empty, else
    the value of the variant's key variable; its client was constructed
    with that same credential, from an SDK that could be imported. *)
Theorem get_provider_hosted_holds (pn : option string)
    (kwargs : gmap string string) (w : World) (t : list event)
    (p : LLMProvider) :
  get_provider pn kwargs w = (t, Return p) →
  match p with
  | OllamaProvider _ => True
  | OpenAIProvider _ k c =>
      k ≠ "" ∧ c = {| sdk := "openai"; credential := k |}
      ∧ importable w "openai" = true
      ∧ chosen_key kwargs w "OPENAI_API_KEY" = Some k
  | AnthropicProvider _ k c =>
      k ≠ "" ∧ c = {| sdk := "anthropic"; credential := k |}
      ∧ importable w "anthropic" = true
      ∧ chosen_key kwargs w "ANTHROPIC_API_KEY" = Some k
  end.
Proof.
  intros H. destruct (resolve_run pn w) as (t0 & name & Hr & H0).
  destruct (known_or_not name) as [-> | [-> | [-> | Hn]]].
  - destruct (get_provider_ollama pn kwargs w t0 Hr) as (tm & Hm & E).
    rewrite E in H. by injection H as _ <-.
  - destruct (get_provider_openai pn kwargs w t0 Hr) as (tg & _ & E).
    rewrite E in H. injection H as _ H.
    rewrite OpenAIProvider_init_run in H. simpl in H.
    destruct (chosen_key_cases kwargs w "OPENAI_API_KEY") as [Hk | Hk].
    + rewrite Hk in H.
      destruct (chosen_key kwargs w "OPENAI_API_KEY") as [[|c k]|] eqn:Ek;
        try done. simpl in H.
      destruct (importable w "openai") eqn:Hi; [|done].
      by injection H as <-.
    + rewrite Hk in H |- *.
      assert ((if truthy (environ w !! "OPENAI_API_KEY")
               then environ w !! "OPENAI_API_KEY"
               else environ w !! "OPENAI_API_KEY")
              = environ w !! "OPENAI_API_KEY") as Hsame
        by (by destruct (truthy _)).
      rewrite Hsame in H.
      destruct (environ w !! "OPENAI_API_KEY") as [[|c k]|]; try done.
      simpl in H. destruct (importable w "openai") eqn:Hi; [|done].
      by injection H as <-.
  - destruct (get_provider_anthropic pn kwargs w t0 Hr) as (tg & _ & E).
    rewrite E in H. injection H as _ H.
    rewrite AnthropicProvider_init_run in H. simpl in H.
    destruct (chosen_key_cases kwargs w "ANTHROPIC_API_KEY") as [Hk | Hk].
    + rewrite Hk in H.
      destruct (chosen_key kwargs w "ANTHROPIC_API_KEY") as [[|c k]|] eqn:Ek;
        try done. simpl in H.
      destruct (importable w "anthropic") eqn:Hi; [|done].
      by injection H as <-.
    + rewrite Hk in H |- *.
      assert ((if truthy (environ w !! "ANTHROPIC_API_KEY")
               then environ w !! "ANTHROPIC_API_KEY"
               else environ w !! "ANTHROPIC_API_KEY")
              = environ w !! "ANTHROPIC_API_KEY") as Hsame
        by (by destruct (truthy _)).
      rewrite Hsame in H.
      destruct (environ w !! "ANTHROPIC_API_KEY") as [[|c k]|]; try done.
      simpl in H. destruct (importable w "anthropic") eqn:Hi; [|done].
      by injection H as <-.
  - rewrite (get_provider_unknown_resolved pn kwargs w t0 name Hr Hn) in H.
    done.
Qed.

Lemma get_provider_hosted_holds_witness :
  "sk-env" ≠ ""
  ∧ importable
      (Demo.world {[ "ANTHROPIC_API_KEY" := "sk-env" ]} true (Return []) "")
      "anthropic" = true
  ∧ chosen_key {[ "api_key" := "" ]}
      (Demo.world {[ "ANTHROPIC_API_KEY" := "sk-env" ]} true (Return []) "")
      "ANTHROPIC_API_KEY" = Some "sk-env".
Proof.
  assert (get_provider (Some "anthropic") {[ "api_key" := "" ]}
            (Demo.world {[ "ANTHROPIC_API_KEY" := "sk-env" ]} true
               (Return []) "")
          = ([Getenv "ANTHROPIC_MODEL"; Getenv "ANTHROPIC_API_KEY";
              Import "anthropic";
              NewClient {| sdk := "anthropic"; credential := "sk-env" |}],
             Return (AnthropicProvider "claude-3-haiku-20240307" "sk-env"
                       {| sdk := "anthropic"; credential := "sk-env" |})))
    as H by (vm_compute; reflexivity).
  destruct (get_provider_hosted_holds _ _ _ _ _ H) as (H1 & _ & H3 & H4).
  exact (conj H1 (conj H3 H4)).
Defined.

(** *** summarize *)

(** The digit limit, at its two sides, on an interpreter with the usual
    limit of 4300. *)
Example refused_4301_digits :
  refused (Demo.world ∅ false (Return []) "X") (Some (10 ^ 4300)%Z) = true
  ∧ refused (Demo.world ∅ false (Return []) "X") (Some (10 ^ 4300 - 1)%Z)
    = false
  ∧ refused (Demo.world ∅ false (Return []) "X") (Some (1 - 10 ^ 4300)%Z)
    = false.
Proof. split_and!; vm_compute; reflexivity. Qed.

(** A [max_length] of 4301 digits: the f-string raises and the backend is
    not asked. *)
Example summarize_4301_digits :
  summarize (OllamaProvider "llama3.2") "Hello world" (Some (10 ^ 4300)%Z)
    (Demo.world ∅ false (Return []) "X")
  = ([], Raise (Exc ValueError "Exceeds the limit (4300 digits) for integer string conversion; use sys.set_int_max_str_digits() to increase the limit")).
Proof. vm_compute. reflexivity. Qed.

Lemma summarize_run (p : LLMProvider) (text : string)
    (max_length : option Z) (w : World) :
  refused w max_length = false →
  ∃ ev,
    (summarize p text max_length w).1 = [ev]
    ∧ is_backend_call ev = true
    ∧ request_settings ev = Some (model_of p, 0.3%Q, 1000%Z)
    ∧ ∀ e, backend_raises w ev e →
           summarize p text max_length w = ([ev], Raise e).
Proof.
  intros Hc. destruct p as [model | model key client | model key client].
  - exists (OllamaGenerate (ollama_request model text max_length)).
    unfold summarize. rewrite OllamaProvider_summarize_run by done.
    split_and!; try done. simpl. by intros e ->.
  - exists (ChatCompletionsCreate client
              (openai_request model text max_length)).
    unfold summarize. rewrite OpenAIProvider_summarize_run by done.
    split_and!; try done. simpl. by intros e ->.
  - exists (MessagesCreate client (anthropic_request model text max_length)).
    unfold summarize. rewrite AnthropicProvider_summarize_run by done.
    split_and!; try done. simpl. by intros e ->.
Qed.

(** X9. Where the interpreter converts [max_length] (always for [None],
    for [0] and with no digit limit), each [summarize] makes one backend
    call and no other call: the request carries the model name the
    provider holds, temperature 0.3 and a cap of 1000 tokens, whatever the
    text and [max_length], and an exception of the backend comes out as it
    is, after that one call. Where the conversion is refused, [summarize]
    raises the interpreter's [ValueError] and makes no call; with a digit
    limit that is exactly for a [max_length] of absolute value
    [10 ^ limit] and more. *)
Theorem summarize_one_call (p : LLMProvider) (text : string)
    (max_length : option Z) (w : World) :
  (refused w max_length = false →
   ∃ ev,
     (summarize p text max_length w).1 = [ev]
     ∧ is_backend_call ev = true
     ∧ request_settings ev = Some (model_of p, 0.3%Q, 1000%Z)
     ∧ ∀ e, backend_raises w ev e →
            summarize p text max_length w = ([ev], Raise e))
  ∧ (refused w max_length = true →
     summarize p text max_length w
     = ([], Raise (int_str_error (int_max_str_digits w))))
  ∧ (max_length = None ∨ max_length = Some 0%Z
     ∨ int_max_str_digits w = 0%Z →
     refused w max_length = false)
  ∧ (∀ n, max_length = Some n →
          (int_str_threshold ≤ int_max_str_digits w)%Z →
          refused w max_length = true
          ↔ (10 ^ int_max_str_digits w ≤ Z.abs n)%Z).
Proof.
  split_and!.
  - apply summarize_run.
  - apply summarize_refused.
  - apply refused_never.
  - intros n -> Hl. by apply refused_spec.
Qed.

Lemma summarize_one_call_witness :
  refused (Demo.world ∅ true (Return []) "X") (Some 50%Z) = false
  ∧ ∃ ev,
      (summarize (OpenAIProvider "gpt-3.5-turbo" "sk-test"
                    {| sdk := "openai"; credential := "sk-test" |})
         "Hello world" (Some 50%Z)
         (Demo.world ∅ true (Return []) "X")).1 = [ev]
      ∧ is_backend_call ev = true
      ∧ request_settings ev = Some ("gpt-3.5-turbo", 0.3%Q, 1000%Z).
Proof.
  assert (refused (Demo.world ∅ true (Return []) "X") (Some 50%Z) = false)
    as Hc by reflexivity.
  split; [exact Hc |].
  destruct (proj1 (summarize_one_call
                     (OpenAIProvider "gpt-3.5-turbo" "sk-test"
                        {| sdk := "openai"; credential := "sk-test" |})
                     "Hello world" (Some 50%Z)
                     (Demo.world ∅ true (Return []) "X")) Hc)
    as (ev & E & Hb & Hs & _).
  by exists ev.
Defined.

(** *** The length clause, for every length *)

(** The prompt or user message each variant sends. *)
Lemma sent_prompt (p : LLMProvider) (text : string) (max_length : option Z)
    (w : World) :
  refused w max_length = false →
  prompt_of <$> (summarize p text max_length w).1
  = [Some match p with
          | OllamaProvider _ => ollama_prompt text max_length
          | OpenAIProvider _ _ _ => openai_user_message text max_length
          | AnthropicProvider _ _ _ => anthropic_user_message text max_length
          end].
Proof.
  intros Hc. destruct p as [model | model key client | model key client].
  - unfold summarize. by rewrite OllamaProvider_summarize_run.
  - unfold summarize. by rewrite OpenAIProvider_summarize_run.
  - unfold summarize. by rewrite AnthropicProvider_summarize_run.
Qed.

Lemma of_int_negative (n : Z) :
  (n < 0)%Z → ∃ digits, of_int n = "-" +:+ digits.
Proof.
  destruct n as [|q|q]; try lia. intros _. by eexists.
Qed.

(** X10. For every variant and every [max_length] other than [0] that the
    interpreter converts, the prompt or message sent is the one of
    [max_length=None] followed by the clause, which is the last thing in
    it and names [max_length] in decimal; the code does not reject a
    negative [max_length], the clause then names the negative number. *)
Theorem summarize_clause_any_length (p : LLMProvider) (text : string)
    (n : Z) (w : World) :
  n ≠ 0%Z →
  refused w (Some n) = false →
  (∃ base lead close,
     prompt_of <$> (summarize p text None w).1 = [Some base]
     ∧ prompt_of <$> (summarize p text (Some n) w).1
       = [Some (base +:+ lead +:+ "the summary under " +:+ of_int n
                +:+ " words" +:+ close)]
     ∧ (close = ")" ∨ close = "."))
  ∧ ((n < 0)%Z → ∃ digits, of_int n = "-" +:+ digits).
Proof.
  intros Hn Hc. split; [|apply of_int_negative].
  apply Z.eqb_neq in Hn. rewrite !sent_prompt by done.
  destruct p as [model | model key client | model key client].
  - exists (ollama_prompt text None), (nl +:+ "(Please keep "), ")".
    split_and!; [done | | by left].
    unfold ollama_prompt. by rewrite Hn.
  - exists (openai_user_message text None), (nl +:+ nl +:+ "Keep "), ".".
    split_and!; [done | | by right].
    unfold openai_user_message. by rewrite Hn.
  - exists (anthropic_user_message text None), (nl +:+ nl +:+ "Keep "), ".".
    split_and!; [done | | by right].
    unfold anthropic_user_message. by rewrite Hn.
Qed.

Lemma summarize_clause_any_length_witness :
  (-5 ≠ 0)%Z
  ∧ refused (Demo.world ∅ false (Return []) "X") (Some (-5)%Z) = false
  ∧ (∃ base lead close,
       prompt_of <$> (summarize (OllamaProvider "llama3.2") "Hello world"
                        None (Demo.world ∅ false (Return []) "X")).1
       = [Some base]
       ∧ prompt_of <$> (summarize (OllamaProvider "llama3.2") "Hello world"
                          (Some (-5)%Z)
                          (Demo.world ∅ false (Return []) "X")).1
         = [Some (base +:+ lead +:+ "the summary under " +:+ of_int (-5)
                  +:+ " words" +:+ close)]
       ∧ (close = ")" ∨ close = "."))
  ∧ ∃ digits, of_int (-5) = "-" +:+ digits.
Proof.
  assert (-5 ≠ 0)%Z as Hn by discriminate.
  assert (refused (Demo.world ∅ false (Return []) "X") (Some (-5)%Z) = false)
    as Hc by reflexivity.
  destruct (summarize_clause_any_length (OllamaProvider "llama3.2")
              "Hello world" (-5) (Demo.world ∅ false (Return []) "X") Hn Hc)
    as [H1 H2].
  split_and!; [exact Hn | exact Hc | exact H1 |].
  apply H2. reflexivity.
Defined.

Example ollama_prompt_negative :
  ollama_prompt "Hello world" (Some (-5)%Z)
  = ollama_prompt "Hello world" None +:+ nl
    +:+ "(Please keep the summary under -5 words)".
Proof. reflexivity. Qed.

(** X11. For every variant and every [max_length] the interpreter
    converts, the prompt or message is a frame around the transcript that
    does not depend on it: the text is sent whole and unchanged, nothing of
    it is cut, escaped or repeated. *)
Theorem summarize_frames_text (p : LLMProvider) (max_length : option Z) :
  ∃ head tail,
    ∀ (text : string) (w : World),
      refused w max_length = false →
      prompt_of <$> (summarize p text max_length w).1
      = [Some (head +:+ text +:+ tail)].
Proof.
  destruct p as [model | model key client | model key client].
  - exists ("Please provide a concise summary of the following transcript."
            +:+ nl +:+ "Focus on the main points and key insights." +:+ nl
            +:+ nl +:+ "TRANSCRIPT:" +:+ nl).
    exists (match max_length with
            | Some n =>
                if (n =? 0)%Z then nl +:+ nl +:+ "SUMMARY:"
                else (nl +:+ nl +:+ "SUMMARY:")
                     +:+ nl +:+ "(Please keep the summary under "
                     +:+ of_int n +:+ " words)"
            | None => nl +:+ nl +:+ "SUMMARY:"
            end).
    intros text w Hc. rewrite sent_prompt by done. do 2 f_equal.
    unfold ollama_prompt. destruct max_length as [n|]; [|done].
    destruct (n =? 0)%Z; [done |]. by rewrite !app_assoc.
  - exists ("Please summarize the following transcript:" +:+ nl +:+ nl).
    exists (match max_length with
            | Some n =>
                if (n =? 0)%Z then ""
                else nl +:+ nl +:+ "Keep the summary under " +:+ of_int n
                     +:+ " words."
            | None => ""
            end).
    intros text w Hc. rewrite sent_prompt by done. do 2 f_equal.
    unfold openai_user_message. destruct max_length as [n|];
      [|by rewrite app_nil_r].
    destruct (n =? 0)%Z; [by rewrite app_nil_r |]. by rewrite !app_assoc.
  - exists ("Here is the transcript to summarize:" +:+ nl +:+ nl).
    exists (match max_length with
            | Some n =>
                if (n =? 0)%Z then ""
                else nl +:+ nl +:+ "Keep the summary under " +:+ of_int n
                     +:+ " words."
            | None => ""
            end).
    intros text w Hc. rewrite sent_prompt by done. do 2 f_equal.
    unfold anthropic_user_message. destruct max_length as [n|];
      [|by rewrite app_nil_r].
    destruct (n =? 0)%Z; [by rewrite app_nil_r |]. by rewrite !app_assoc.
Qed.

(** One frame for two transcripts, with [max_length=50]. *)
Lemma summarize_frames_text_witness :
  ∃ head tail,
    prompt_of <$> (summarize (OllamaProvider "llama3.2") "Hello world"
                     (Some 50%Z) (Demo.world ∅ false (Return []) "X")).1
    = [Some (head +:+ "Hello world" +:+ tail)]
    ∧ prompt_of <$> (summarize (OllamaProvider "llama3.2") "Another one"
                       (Some 50%Z) (Demo.world ∅ false (Return []) "X")).1
      = [Some (head +:+ "Another one" +:+ tail)].
Proof.
  destruct (summarize_frames_text (OllamaProvider "llama3.2") (Some 50%Z))
    as (head & tail & H).
  exists head, tail. split; apply H; reflexivity.
Defined.

(** *** The selector of the environment *)

Lemma lower_char_idem (c : ascii) : lower_char (lower_char c) = lower_char c.
Proof. by destruct c as [[] [] [] [] [] [] [] []]. Qed.

Lemma lower_idem (s : string) : lower (lower s) = lower s.
Proof.
  induction s as [|c s IH]; simpl; [done |].
  by rewrite lower_char_idem, IH.
Qed.

(** X12. The selector read from [SUMMARY_PROVIDER] is compared without
    regard to case: with no selector argument, the value and its lower-case
    form give the same run of [get_provider], provider or error. *)
Theorem get_provider_env_case (pn : option string) (v : string)
    (kwargs : gmap string string) (w : World) :
  pn = None ∨ pn = Some "" →
  get_provider pn kwargs (setenv "SUMMARY_PROVIDER" v w)
  = get_provider pn kwargs (setenv "SUMMARY_PROVIDER" (lower v) w).
Proof.
  intros Hpn. unfold get_provider, bind.
  rewrite !(resolve_default pn) by done.
  unfold setenv, with_environ. cbn [environ].
  rewrite !lookup_insert_eq. cbn [default from_option id].
  rewrite lower_idem.
  unfold or_str, or_opt, getenv, getenv_default, OllamaProvider_init,
    OpenAIProvider_init, AnthropicProvider_init, import_client, or_opt,
    getenv, bind, call, ret, raise.
  destruct (decide (lower v = "ollama"));
    [|destruct (decide (lower v = "openai"));
      [|destruct (decide (lower v = "anthropic")); [|done]]];
    destruct (kwargs !! "model_name") as [[|c m]|];
    try destruct (kwargs !! "api_key") as [[|c' k]|];
    repeat first
      [ rewrite lookup_insert_ne by done
      | progress cbn -[String.append]
      | match goal with
        | |- context [environ w !! ?k] =>
            destruct (environ w !! k) as [[|? ?]|]
        | |- context [importable w ?p] => destruct (importable w p)
        end ];
    reflexivity.
Qed.

Lemma get_provider_env_case_witness :
  get_provider None ∅
    (setenv "SUMMARY_PROVIDER" "OpenAI"
       (Demo.world {[ "OPENAI_API_KEY" := "sk-env" ]} true (Return []) ""))
  = get_provider None ∅
      (setenv "SUMMARY_PROVIDER" "openai"
         (Demo.world {[ "OPENAI_API_KEY" := "sk-env" ]} true (Return []) "")).
Proof.
  refine (get_provider_env_case None "OpenAI" ∅
            (Demo.world {[ "OPENAI_API_KEY" := "sk-env" ]} true
               (Return []) "") _).
  by left.
Defined.

(** *** summarize_text, call by call *)

Lemma no_backend_call (t : list event) :
  Forall (λ ev, is_getenv ev = true ∨ is_sdk_use ev = true) t →
  filter (λ ev, is_backend_call ev = true) t = [].
Proof.
  induction 1 as [|ev t Hev _ IH]; [done |].
  rewrite filter_cons, IH. case_decide as Hb; [|done].
  destruct ev; simpl in *; destruct Hev; congruence.
Qed.

(** X13. Where the interpreter converts [max_length], [summarize_text]
    calls a backend once when [get_provider] returns a provider, with the
    model name that provider holds; it calls none when [get_provider]
    fails, and the failure comes out as it is; it calls none either where
    the conversion is refused. *)
Theorem summarize_text_calls (text : string) (pn : option string)
    (max_length : option Z) (kwargs : gmap string string) (w : World) :
  (refused w max_length = false →
   ∀ t p, get_provider pn kwargs w = (t, Return p) →
          ∃ ev,
            filter (λ ev, is_backend_call ev = true)
              (summarize_text text pn max_length kwargs w).1 = [ev]
            ∧ request_settings ev = Some (model_of p, 0.3%Q, 1000%Z))
  ∧ (∀ t e, get_provider pn kwargs w = (t, Raise e) →
            filter (λ ev, is_backend_call ev = true)
              (summarize_text text pn max_length kwargs w).1 = []
            ∧ (summarize_text text pn max_length kwargs w).2 = Raise e)
  ∧ (refused w max_length = true →
     filter (λ ev, is_backend_call ev = true)
       (summarize_text text pn max_length kwargs w).1 = []).
Proof.
  pose proof (get_provider_log pn kwargs w) as Hlog.
  split_and!.
  - intros Hc t p H. rewrite H in Hlog. simpl in Hlog.
    destruct (summarize_run p text max_length w Hc)
      as (ev & E & Hb & Hs & _).
    exists ev. split; [|done].
    unfold summarize_text, bind. rewrite H.
    destruct (summarize p text max_length w) as [t' r]. simpl in *. subst t'.
    rewrite filter_app, (no_backend_call _ Hlog). simpl.
    rewrite filter_cons, decide_True by done. done.
  - intros t e H. rewrite H in Hlog. simpl in Hlog.
    unfold summarize_text, bind. rewrite H. simpl.
    split; [by apply no_backend_call | done].
  - intros Hr. unfold summarize_text, bind.
    destruct (get_provider pn kwargs w) as [t [p|e]]; simpl in Hlog.
    + rewrite (summarize_refused p text max_length w Hr). simpl.
      rewrite (right_id_L [] (++)). by apply no_backend_call.
    + by apply no_backend_call.
Qed.

(** The local selector with [max_length=50]: one call, with the model of
    the keyword argument. *)
Lemma summarize_text_calls_witness :
  refused (Demo.world ∅ false (Return []) "X") (Some 50%Z) = false
  ∧ ∃ ev,
      filter (λ ev, is_backend_call ev = true)
        (summarize_text "Hello world" (Some "ollama") (Some 50%Z)
           {[ "model_name" := "mistral" ]}
           (Demo.world ∅ false (Return []) "X")).1 = [ev]
      ∧ request_settings ev = Some ("mistral", 0.3%Q, 1000%Z).
Proof.
  assert (refused (Demo.world ∅ false (Return []) "X") (Some 50%Z) = false)
    as Hc by reflexivity.
  split; [exact Hc |].
  assert (get_provider (Some "ollama") {[ "model_name" := "mistral" ]}
            (Demo.world ∅ false (Return []) "X")
          = ([], Return (OllamaProvider "mistral")))
    as H by (vm_compute; reflexivity).
  exact (proj1 (summarize_text_calls "Hello world" (Some "ollama")
                  (Some 50%Z) {[ "model_name" := "mistral" ]}
                  (Demo.world ∅ false (Return []) "X"))
               Hc [] (OllamaProvider "mistral") H).
Defined.

End SummarizerExtras.

(** ** Properties of cli.py *)

Module CliProps.

Import Str Spec StrFacts Run Cli.

#[local] Arguments String.append !_ _ / : simpl nomatch.

(** *** [split] *)

Lemma split_nonempty (sep : ascii) (s : string) : split sep s ≠ [].
Proof.
  destruct s as [|c s]; simpl; [done |].
  case_decide; [done |]. by destruct (split sep s).
Qed.

Lemma join_cons_char (sep : string) (c : ascii) (x : string)
    (l : list string) :
  join sep (String c x :: l) = String c (join sep (x :: l)).
Proof. by destruct l. Qed.

(** Joining the pieces with the separator gives the string back. *)
Lemma join_split (sep : ascii) (s : string) :
  join (String sep "") (split sep s) = s.
Proof.
  induction s as [|c s IH]; simpl; [done |].
  case_decide as Hc.
  - subst c. destruct (split sep s) as [|y ys] eqn:E;
      [by destruct (split_nonempty sep s) |].
    simpl. by rewrite <- IH.
  - destruct (split sep s) as [|y ys] eqn:E;
      [by destruct (split_nonempty sep s) |].
    by rewrite join_cons_char, IH.
Qed.

Lemma split_no_sep (sep : ascii) (s x : string) :
  x ∈ split sep s → ¬ occurs (String sep "") x.
Proof.
  revert x. induction s as [|c s IH]; intros x; simpl.
  - intros ->%list_elem_of_singleton (a & b & E).
    symmetry in E. apply app_eq_nil in E as [_ E]. discriminate E.
  - case_decide as Hc.
    + intros [-> | Hx]%elem_of_cons; [|by apply IH].
      intros (a & b & E). symmetry in E.
      apply app_eq_nil in E as [_ E]. discriminate E.
    + destruct (split sep s) as [|y ys] eqn:E.
      * by destruct (split_nonempty sep s).
      * intros [-> | Hx]%elem_of_cons.
        -- intros [[b Hb] | Ho]%occurs_inv.
           ++ simpl in Hb. by injection Hb as -> _.
           ++ apply (IH y); [by left | done].
        -- apply IH. by right.
Qed.

(** *** The commands, step by step *)

Ltac same_log :=
  simpl;
  repeat (progress (cbn [app];
                    rewrite ?(right_id_L [] (++)), <- ?(assoc_L (++))));
  reflexivity.

(** The [transcript] command, by how the retrieval and the write end. *)
Lemma cli_transcript_run (url : string) (languages output_file : option string)
    (h : Host) (w : World) :
  transcript url languages output_file h w
  = match Transcript.get_transcript_text url (parse_languages languages)
            (loaded h w) with
    | (t, Raise e) => (opening url ++ (Core <$> t), loaded h w, Raise e)
    | (t, Return s) =>
        let fetched :=
          Print ("Transcript fetched successfully ("
                 +:+ of_int (Z.of_nat (String.length s)) +:+ " characters)") in
        match given output_file with
        | None =>
            (opening url ++ (Core <$> t) ++ [fetched], loaded h w, Return s)
        | Some path =>
            match write_file h path s with
            | Return _ =>
                (opening url ++ (Core <$> t)
                   ++ [fetched; WriteFile path s;
                       Print ("Transcript saved to " +:+ path)],
                 loaded h w, Return s)
            | Raise e =>
                (opening url ++ (Core <$> t) ++ [fetched; WriteFile path s],
                 loaded h w, Raise e)
            end
        end
    end.
Proof.
  unfold transcript, cbind, dotenv, print, core, open_write, cret, opening.
  fold (loaded h w).
  destruct (Transcript.get_transcript_text url (parse_languages languages)
              (loaded h w)) as [t [s | e]]; [|done].
  destruct output_file as [[|c path]|]; simpl;
    try destruct (write_file h (String c path) s) as [[] | e]; same_log.
Qed.

(** What the [summarize] command prints as the provider. *)
Lemma shown_run (provider : option string) (w : World) :
  ∃ t shown,
    Summarizer.or_str provider (getenv_default "SUMMARY_PROVIDER" "ollama") w
    = (t, Return shown)
    ∧ Forall (λ ev, is_getenv ev = true) t.
Proof.
  unfold Summarizer.or_str, getenv_default, call, ret.
  destruct provider as [[|c s]|]; eexists _, _;
    (split; [reflexivity |]); by repeat constructor.
Qed.

(** The [summarize] command, by how the retrieval, the summarization and
    the write end. *)
Lemma cli_summarize_run (url : string) (provider model : option string)
    (max_length : option Z) (languages output_file : option string)
    (h : Host) (w : World) :
  summarize url provider model max_length languages output_file h w
  = match Transcript.get_transcript_text url (parse_languages languages)
            (loaded h w) with
    | (t, Raise e) => (opening url ++ (Core <$> t), loaded h w, Raise e)
    | (t, Return tr) =>
        let fetched :=
          Print ("Transcript fetched successfully ("
                 +:+ of_int (Z.of_nat (String.length tr)) +:+ " characters)") in
        match Summarizer.or_str provider
                (getenv_default "SUMMARY_PROVIDER" "ollama") (loaded h w) with
        | (ts, Raise e) =>
            (opening url ++ (Core <$> t) ++ [fetched] ++ (Core <$> ts),
             loaded h w, Raise e)
        | (ts, Return shown) =>
            let before :=
              opening url ++ (Core <$> t) ++ [fetched] ++ (Core <$> ts)
              ++ [Print ("Summarizing transcript using " +:+ shown
                         +:+ " provider...")] in
            match Summarizer.summarize_text tr provider max_length
                    (model_kwargs model) (loaded h w) with
            | (t2, Raise e) => (before ++ (Core <$> t2), loaded h w, Raise e)
            | (t2, Return s) =>
                match given output_file with
                | None => (before ++ (Core <$> t2), loaded h w, Return s)
                | Some path =>
                    match write_file h path s with
                    | Return _ =>
                        (before ++ (Core <$> t2)
                           ++ [WriteFile path s;
                               Print ("Summary saved to " +:+ path)],
                         loaded h w, Return s)
                    | Raise e =>
                        (before ++ (Core <$> t2) ++ [WriteFile path s],
                         loaded h w, Raise e)
                    end
                end
            end
        end
    end.
Proof.
  unfold summarize, cbind, dotenv, print, core, open_write, cret, opening.
  fold (loaded h w).
  destruct (Transcript.get_transcript_text url (parse_languages languages)
              (loaded h w)) as [t [tr | e]]; [|done].
  destruct (Summarizer.or_str provider _ (loaded h w)) as [ts [shown | e]];
    [|same_log].
  destruct (Summarizer.summarize_text tr provider max_length
              (model_kwargs model) (loaded h w)) as [t2 [s | e]];
    [|same_log].
  destruct output_file as [[|c path]|]; simpl;
    try destruct (write_file h (String c path) s) as [[] | e]; same_log.
Qed.

(** What the two modules log, seen from a command. *)
Lemma fetch_log (url : string) (langs : list string) (w : World)
    (ev : event) :
  ev ∈ (Transcript.get_transcript_text url langs w).1 →
  ∃ video_id, ev = FetchCaptions video_id langs.
Proof.
  rewrite TranscriptExtras.get_transcript_text_run.
  destruct (TranscriptExtras.get_transcript_cases url langs w)
    as [(_ & _ & E) | (video_id & _ & E)]; rewrite E.
  - simpl. by intros ?%elem_of_nil.
  - destruct (YouTubeTranscriptApi_get_transcript w video_id langs);
      simpl; intros ->%list_elem_of_singleton; by exists video_id.
Qed.

Lemma summarize_text_log (text : string) (provider : option string)
    (max_length : option Z) (kwargs : gmap string string) (w : World)
    (ev : event) :
  ev ∈ (Summarizer.summarize_text text provider max_length kwargs w).1 →
  is_backend_call ev = true →
  ∃ t p,
    Summarizer.get_provider provider kwargs w = (t, Return p)
    ∧ request_settings ev = Some (model_of p, 0.3%Q, 1000%Z).
Proof.
  pose proof (SummarizerExtras.get_provider_log provider kwargs w) as Hlog.
  unfold Summarizer.summarize_text, bind.
  destruct (Summarizer.get_provider provider kwargs w) as [t [p | e]].
  - destruct (refused w max_length) eqn:Hc.
    + rewrite (SummarizerProps.summarize_refused p text max_length w Hc).
      simpl in *. rewrite (right_id_L [] (++)). intros Hin Hb.
      rewrite Forall_forall in Hlog. destruct (Hlog ev Hin);
        destruct ev; simpl in *; congruence.
    + destruct (SummarizerExtras.summarize_run p text max_length w Hc)
        as (ev0 & E & _ & Hs & _).
      destruct (Summarizer.summarize p text max_length w) as [t' r].
      simpl in *. subst t'.
      intros [Hin | ->%list_elem_of_singleton]%elem_of_app Hb.
      * rewrite Forall_forall in Hlog. destruct (Hlog ev Hin);
          destruct ev; simpl in *; congruence.
      * by exists t, p.
  - simpl in *. intros Hin Hb.
    rewrite Forall_forall in Hlog. destruct (Hlog ev Hin);
      destruct ev; simpl in *; congruence.
Qed.

Lemma write_not_core (path content : string) (t : list event) :
  WriteFile path content ∉ Core <$> t.
Proof. by intros (ev & ? & _)%list_elem_of_fmap. Qed.

Lemma write_not_opening (path content url : string) :
  WriteFile path content ∉ opening url.
Proof.
  unfold opening. rewrite !not_elem_of_cons.
  split_and!; try done. apply not_elem_of_nil.
Qed.

Lemma write_in_log (path content url : string) (t : list event)
    (tail : list cli_event) :
  WriteFile path content ∈ opening url ++ (Core <$> t) ++ tail →
  WriteFile path content ∈ tail.
Proof.
  rewrite !elem_of_app. intros [Ho | [Hc | Ht]]; [| | done].
  - by destruct (write_not_opening _ _ _ Ho).
  - by destruct (write_not_core _ _ _ Hc).
Qed.

(** What [summarize_text] logs is no call of the captioning service. *)
Lemma summarize_text_no_fetch (text : string) (provider : option string)
    (max_length : option Z) (kwargs : gmap string string) (w : World)
    (v : string) (l : list string) :
  FetchCaptions v l
  ∉ (Summarizer.summarize_text text provider max_length kwargs w).1.
Proof.
  pose proof (SummarizerExtras.get_provider_log provider kwargs w) as Hlog.
  rewrite Forall_forall in Hlog.
  unfold Summarizer.summarize_text, bind.
  destruct (Summarizer.get_provider provider kwargs w) as [t [p | e]];
    simpl in Hlog.
  - destruct (refused w max_length) eqn:Hc.
    + rewrite (SummarizerProps.summarize_refused p text max_length w Hc).
      simpl. rewrite (right_id_L [] (++)). intros Hin.
      by destruct (Hlog _ Hin).
    + destruct (SummarizerExtras.summarize_run p text max_length w Hc)
        as (ev0 & E & Hb & _).
      destruct (Summarizer.summarize p text max_length w) as [t' r].
      simpl in *. subst t'.
      intros [Hin | <-%list_elem_of_singleton]%elem_of_app.
      * by destruct (Hlog _ Hin).
      * done.
  - simpl. intros Hin. by destruct (Hlog _ Hin).
Qed.

(** A call of the captioning service among the calls of the retrieval,
    seen from a command. *)
Lemma fetch_in_core (url : string) (langs l : list string) (w : World)
    (v : string) :
  Core (FetchCaptions v l)
  ∈ Core <$> (Transcript.get_transcript_text url langs w).1 →
  l = langs.
Proof.
  intros (ev & [= <-] & Hin)%list_elem_of_fmap.
  apply fetch_log in Hin as (video_id & [= _ ->]). done.
Qed.

Ltac not_a_fetch H :=
  repeat (apply elem_of_cons in H as [H | H]; [discriminate H |]);
  by apply elem_of_nil in H.

(** X14. For a [languages] of its annotated type, [None] or a [str], the
    list each command asks the captioning service with is never empty: it
    is [['en']] for [None] and for the empty string; for another string it
    is the pieces between its commas, none of which has a comma, and which
    joined by commas give the string back. Every call of the captioning
    service a command makes carries that list. *)
Theorem cli_languages (url : string) (provider model : option string)
    (max_length : option Z) (languages output_file : option string)
    (h : Host) (w : World) :
  parse_languages languages ≠ []
  ∧ (languages = None ∨ languages = Some "" →
     parse_languages languages = ["en"])
  ∧ (∀ s, languages = Some s → s ≠ "" →
          join "," (parse_languages languages) = s
          ∧ ∀ x, x ∈ parse_languages languages → ¬ occurs "," x)
  ∧ (∀ v l,
       Core (FetchCaptions v l)
       ∈ (transcript url languages output_file h w).1.1 →
       l = parse_languages languages)
  ∧ (∀ v l,
       Core (FetchCaptions v l)
       ∈ (summarize url provider model max_length languages output_file
            h w).1.1 →
       l = parse_languages languages).
Proof.
  split_and!.
  - destruct languages as [[|c s]|]; try done. apply split_nonempty.
  - by intros [-> | ->].
  - intros s -> Hs. destruct s as [|c s]; [done |].
    unfold parse_languages. cbn [is_empty]. split.
    + apply join_split.
    + intros x. apply split_no_sep.
  - intros v l. rewrite cli_transcript_run.
    pose proof (fetch_in_core url (parse_languages languages) l
                  (loaded h w) v) as Hf.
    destruct (Transcript.get_transcript_text url (parse_languages languages)
                (loaded h w)) as [t [s | e]]; simpl in Hf.
    + destruct (given output_file) as [path|];
        [destruct (write_file h path s) |]; cbn [fst];
        rewrite !elem_of_app; intros [H | [H | H]]; auto;
        not_a_fetch H.
    + cbn [fst]. rewrite !elem_of_app. intros [H | H]; auto.
      not_a_fetch H.
  - intros v l. rewrite cli_summarize_run.
    pose proof (fetch_in_core url (parse_languages languages) l
                  (loaded h w) v) as Hf.
    destruct (Transcript.get_transcript_text url (parse_languages languages)
                (loaded h w)) as [t [tr | e]]; simpl in Hf.
    + destruct (shown_run provider (loaded h w)) as (ts & shown & -> & Hts).
      rewrite Forall_forall in Hts.
      assert (Core (FetchCaptions v l) ∉ Core <$> ts) as Hnts.
      { intros (ev & [= <-] & Hin)%list_elem_of_fmap.
        by specialize (Hts _ Hin). }
      pose proof (summarize_text_no_fetch tr provider max_length
                    (model_kwargs model) (loaded h w) v l) as Hn2.
      destruct (Summarizer.summarize_text tr provider max_length
                  (model_kwargs model) (loaded h w)) as [t2 [s | e]];
        simpl in Hn2.
      * assert (Core (FetchCaptions v l) ∉ Core <$> t2) as Hnt2.
        { intros (ev & [= <-] & Hin)%list_elem_of_fmap. done. }
        destruct (given output_file) as [path|];
          [destruct (write_file h path s) |]; cbn [fst];
          rewrite !elem_of_app;
          intros H; decompose [or] H; clear H; auto; try done;
          match goal with H : _ ∈ _ |- _ => not_a_fetch H end.
      * assert (Core (FetchCaptions v l) ∉ Core <$> t2) as Hnt2.
        { intros (ev & [= <-] & Hin)%list_elem_of_fmap. done. }
        cbn [fst]. rewrite !elem_of_app.
        intros H; decompose [or] H; clear H; auto; try done;
          match goal with H : _ ∈ _ |- _ => not_a_fetch H end.
    + cbn [fst]. rewrite !elem_of_app. intros [H | H]; auto.
      not_a_fetch H.
Qed.

(** The [transcript] command called with [languages='en,fr,']: the
    service is asked for English, French and the empty code. *)
Lemma cli_languages_witness :
  join "," (parse_languages (Some "en,fr,")) = "en,fr,"
  ∧ parse_languages (Some "en,fr,") = ["en"; "fr"; ""]
  ∧ (transcript "dQw4w9WgXcQ" (Some "en,fr,") None plain_host
       (Demo.world ∅ false (Return Demo.segments) "")).1.1
    !! 2 = Some (Core (FetchCaptions "dQw4w9WgXcQ" ["en"; "fr"; ""])).
Proof.
  split_and!; [| reflexivity | reflexivity].
  refine (proj1 (proj1 (proj2 (proj2
            (cli_languages "dQw4w9WgXcQ" None None None (Some "en,fr,") None
               plain_host (Demo.world ∅ false (Return Demo.segments) ""))))
            "en,fr," eq_refl _)).
  discriminate.
Defined.

(** X15. The [transcript] command returns the text the retrieval
    returned. It writes only after the retrieval succeeded, only when the
    output file is given and not empty, only to that file, and what it
    writes is the text it returns; when the retrieval fails the failure
    comes out as it is and only the two opening calls and the retrieval
    are logged. *)
Theorem cli_transcript_writes (url : string)
    (languages output_file : option string) (h : Host) (w : World) :
  (∀ s, (transcript url languages output_file h w).2 = Return s →
        (Transcript.get_transcript_text url (parse_languages languages)
           (loaded h w)).2 = Return s)
  ∧ (∀ path content,
       WriteFile path content ∈ (transcript url languages output_file h w).1.1 →
       given output_file = Some path
       ∧ (Transcript.get_transcript_text url (parse_languages languages)
            (loaded h w)).2 = Return content)
  ∧ (∀ e,
       (Transcript.get_transcript_text url (parse_languages languages)
          (loaded h w)).2 = Raise e →
       (transcript url languages output_file h w).2 = Raise e
       ∧ (transcript url languages output_file h w).1.1
         = opening url
             ++ (Core <$> (Transcript.get_transcript_text url
                             (parse_languages languages) (loaded h w)).1)).
Proof.
  rewrite cli_transcript_run.
  destruct (Transcript.get_transcript_text url (parse_languages languages)
              (loaded h w)) as [t [s | e]]; cbv zeta; cbn [fst snd].
  - split_and!.
    + intros s'. destruct (given output_file) as [path|]; [|done].
      by destruct (write_file h path s).
    + intros path content.
      destruct (given output_file) as [path'|];
        [destruct (write_file h path' s)|]; cbn [fst snd];
        intros Hin%write_in_log;
        repeat (apply elem_of_cons in Hin as [Hin | Hin]);
        try discriminate Hin; try (by apply elem_of_nil in Hin);
        by injection Hin as -> ->.
    + done.
  - split_and!; [done | | by intros ? [= ->]].
    intros path content [Ho | Hc]%elem_of_app.
    + by destruct (write_not_opening _ _ _ Ho).
    + by destruct (write_not_core _ _ _ Hc).
Qed.

Lemma cli_transcript_writes_witness :
  (transcript "https://youtu.be/TdAAUoJ065o" None (Some "out.txt")
     plain_host (Demo.world ∅ false (Return Demo.segments) "")).1.1
  = [LoadDotenv;
     Print "Fetching transcript for: https://youtu.be/TdAAUoJ065o";
     Core (FetchCaptions "TdAAUoJ065o" ["en"]);
     Print "Transcript fetched successfully (11 characters)";
     WriteFile "out.txt" "Hello world";
     Print "Transcript saved to out.txt"]
  ∧ given (Some "out.txt") = Some "out.txt"
  ∧ (Transcript.get_transcript_text "https://youtu.be/TdAAUoJ065o"
       (parse_languages None)
       (loaded plain_host (Demo.world ∅ false (Return Demo.segments) ""))).2
    = Return "Hello world".
Proof.
  split; [reflexivity |].
  refine (proj1 (proj2 (cli_transcript_writes "https://youtu.be/TdAAUoJ065o"
                          None (Some "out.txt") plain_host
                          (Demo.world ∅ false (Return Demo.segments) "")))
                "out.txt" "Hello world" _).
  vm_compute. do 4 right. left.
Defined.

(** X16. When the retrieval fails, the [summarize] command fails with
    the same exception and has done nothing but load the [.env] file,
    print its first line and ask the captioning service: no provider is
    resolved, no backend called, nothing written. *)
Theorem cli_summarize_fetch_fails (url : string)
    (provider model : option string) (max_length : option Z)
    (languages output_file : option string) (h : Host) (w : World)
    (t : list event) (e : exception) :
  Transcript.get_transcript_text url (parse_languages languages) (loaded h w)
  = (t, Raise e) →
  (summarize url provider model max_length languages output_file h w).2
  = Raise e
  ∧ ∀ ev,
      ev ∈ (summarize url provider model max_length languages output_file
              h w).1.1 →
      ev = LoadDotenv ∨ ev = Print ("Fetching transcript for: " +:+ url)
      ∨ ∃ video_id,
          ev = Core (FetchCaptions video_id (parse_languages languages)).
Proof.
  intros H. rewrite cli_summarize_run, H. cbn [fst snd]. split; [done |].
  intros ev [Ho | (ev' & -> & Hin)%list_elem_of_fmap]%elem_of_app.
  - unfold opening in Ho.
    repeat (apply elem_of_cons in Ho as [-> | Ho]); auto.
    by apply elem_of_nil in Ho.
  - right; right.
    assert (ev' ∈ (Transcript.get_transcript_text url
                     (parse_languages languages) (loaded h w)).1) as Hev
      by (by rewrite H).
    apply fetch_log in Hev as [video_id ->]. by exists video_id.
Qed.

Lemma cli_summarize_fetch_fails_witness :
  (summarize "https://www.youtube.com/playlist?list=PL1" None None None
     None (Some "out.txt") plain_host
     (Demo.world ∅ false (Return Demo.segments) "X")).2
  = Raise (InvalidReference "https://www.youtube.com/playlist?list=PL1").
Proof.
  refine (proj1 (cli_summarize_fetch_fails
                   "https://www.youtube.com/playlist?list=PL1" None None None
                   None (Some "out.txt") plain_host
                   (Demo.world ∅ false (Return Demo.segments) "X") []
                   (InvalidReference
                      "https://www.youtube.com/playlist?list=PL1") _)).
  vm_compute. reflexivity.
Defined.

Lemma model_kwargs_chosen (model : option string) (m : string) (w : World)
    (variable literal : string) :
  given model = Some m →
  chosen_model (model_kwargs model) w variable literal = m.
Proof.
  destruct model as [[|c s]|]; simpl; try done. intros [= <-].
  unfold chosen_model. by rewrite lookup_singleton_eq.
Qed.

(** X17. What the [summarize] command returns is what [summarize_text]
    returned for the retrieved text, the given provider and length, and the
    model flag as the [model_name] keyword. It writes only that summary,
    only to the output file given. Every backend call it makes carries the
    model of the model flag, when that flag is given. *)
Theorem cli_summarize_result (url : string) (provider model : option string)
    (max_length : option Z) (languages output_file : option string)
    (h : Host) (w : World) :
  (∀ s,
     (summarize url provider model max_length languages output_file h w).2
     = Return s →
     ∃ t tr,
       Transcript.get_transcript_text url (parse_languages languages)
         (loaded h w) = (t, Return tr)
       ∧ (Summarizer.summarize_text tr provider max_length
            (model_kwargs model) (loaded h w)).2 = Return s)
  ∧ (∀ path content,
       WriteFile path content
       ∈ (summarize url provider model max_length languages output_file
            h w).1.1 →
       given output_file = Some path
       ∧ ∃ t tr,
           Transcript.get_transcript_text url (parse_languages languages)
             (loaded h w) = (t, Return tr)
           ∧ (Summarizer.summarize_text tr provider max_length
                (model_kwargs model) (loaded h w)).2 = Return content)
  ∧ (∀ ev m,
       Core ev
       ∈ (summarize url provider model max_length languages output_file
            h w).1.1 →
       is_backend_call ev = true → given model = Some m →
       request_settings ev = Some (m, 0.3%Q, 1000%Z)).
Proof.
  rewrite cli_summarize_run.
  destruct (Transcript.get_transcript_text url (parse_languages languages)
              (loaded h w)) as [t [tr | e]] eqn:Hf; cbv zeta.
  2: { split_and!; [done | |].
       - intros path content [Ho | Hc]%elem_of_app.
         + by destruct (write_not_opening _ _ _ Ho).
         + by destruct (write_not_core _ _ _ Hc).
       - intros ev m [Ho | (ev' & [= <-] & Hin)%list_elem_of_fmap]%elem_of_app
           Hb _.
         + unfold opening in Ho.
           repeat (apply elem_of_cons in Ho as [Ho | Ho]); try done.
           by apply elem_of_nil in Ho.
         + assert (ev ∈ (Transcript.get_transcript_text url
                           (parse_languages languages) (loaded h w)).1) as Hev
             by (by rewrite Hf).
           apply fetch_log in Hev as [video_id ->]. done. }
  destruct (shown_run provider (loaded h w)) as (ts & shown & -> & Hts).
  destruct (Summarizer.summarize_text tr provider max_length
              (model_kwargs model) (loaded h w)) as [t2 r] eqn:Hs.
  set (before := opening url ++ (Core <$> t)
                 ++ [Print ("Transcript fetched successfully ("
                            +:+ of_int (Z.of_nat (String.length tr))
                            +:+ " characters)")]
                 ++ (Core <$> ts)
                 ++ [Print ("Summarizing transcript using " +:+ shown
                            +:+ " provider...")]).
  assert (∀ ev m,
            Core ev ∈ before ++ (Core <$> t2) →
            is_backend_call ev = true → given model = Some m →
            request_settings ev = Some (m, 0.3%Q, 1000%Z)) as Hcalls.
  { intros ev m Hin Hb Hm. unfold before, opening in Hin.
    rewrite !elem_of_app, !elem_of_cons, !list_elem_of_fmap in Hin.
    destruct Hin as [[[? | [? | ?%elem_of_nil]]
                     | [(ev' & [= <-] & Hin)
                       | [[? | ?%elem_of_nil]
                         | [(ev' & [= <-] & Hin)
                           | [? | ?%elem_of_nil]]]]]
                    | (ev' & [= <-] & Hin)]; try done.
    - assert (ev ∈ (Transcript.get_transcript_text url
                      (parse_languages languages) (loaded h w)).1) as Hev
        by (by rewrite Hf).
      apply fetch_log in Hev as [video_id ->]. done.
    - rewrite Forall_forall in Hts. specialize (Hts ev Hin).
      by destruct ev.
    - assert (ev ∈ (Summarizer.summarize_text tr provider max_length
                      (model_kwargs model) (loaded h w)).1) as Hev
        by (by rewrite Hs).
      apply summarize_text_log in Hev as (tp & p & Hp & ->); [|done].
      apply SummarizerExtras.get_provider_returned in Hp as [_ ->].
      by rewrite (model_kwargs_chosen _ _ _ _ _ Hm). }
  assert (∀ path content,
            WriteFile path content ∉ before ++ (Core <$> t2)) as Hnone.
  { intros path content Hin. unfold before, opening in Hin.
    rewrite !elem_of_app, !elem_of_cons, !list_elem_of_fmap in Hin.
    destruct Hin as [[[? | [? | ?%elem_of_nil]]
                     | [(ev' & ? & _)
                       | [[? | ?%elem_of_nil]
                         | [(ev' & ? & _)
                           | [? | ?%elem_of_nil]]]]]
                    | (ev' & ? & _)]; done. }
  clearbody before.
  destruct r as [s | e]; [destruct (given output_file) as [path|];
                          [destruct (write_file h path s) as [[] | e]|]|];
    cbn [fst snd].
  - split_and!.
    + intros s' [= <-]. exists t, tr. by rewrite Hs.
    + intros path' content Hin. rewrite (assoc_L (++)) in Hin.
      apply elem_of_app in Hin as [Hin | Hin];
        [by destruct (Hnone _ _ Hin) |].
      repeat (apply elem_of_cons in Hin as [Hin | Hin]);
        try discriminate Hin; try (by apply elem_of_nil in Hin).
      injection Hin as -> ->. split; [done |]. exists t, tr. by rewrite Hs.
    + intros ev m Hin. rewrite (assoc_L (++)) in Hin.
      apply elem_of_app in Hin as [Hin | Hin]; [by apply Hcalls |].
      repeat (apply elem_of_cons in Hin as [Hin | Hin]);
        try discriminate Hin. by apply elem_of_nil in Hin.
  - split_and!.
    + done.
    + intros path' content Hin. rewrite (assoc_L (++)) in Hin.
      apply elem_of_app in Hin as [Hin | Hin];
        [by destruct (Hnone _ _ Hin) |].
      repeat (apply elem_of_cons in Hin as [Hin | Hin]);
        try discriminate Hin; try (by apply elem_of_nil in Hin).
      injection Hin as -> ->. split; [done |]. exists t, tr. by rewrite Hs.
    + intros ev m Hin. rewrite (assoc_L (++)) in Hin.
      apply elem_of_app in Hin as [Hin | Hin]; [by apply Hcalls |].
      repeat (apply elem_of_cons in Hin as [Hin | Hin]);
        try discriminate Hin. by apply elem_of_nil in Hin.
  - split_and!.
    + intros s' [= <-]. exists t, tr. by rewrite Hs.
    + intros path' content Hin. by destruct (Hnone _ _ Hin).
    + intros ev m Hin. by apply Hcalls.
  - split_and!.
    + done.
    + intros path' content Hin. by destruct (Hnone _ _ Hin).
    + intros ev m Hin. by apply Hcalls.
Qed.

Lemma cli_summarize_result_witness :
  request_settings
    (OllamaGenerate
       (Summarizer.ollama_request "mistral" "Hello world" (Some 50%Z)))
  = Some ("mistral", 0.3%Q, 1000%Z).
Proof.
  refine (proj2 (proj2 (cli_summarize_result "TdAAUoJ065o" None
                          (Some "mistral") (Some 50%Z) None None plain_host
                          (Demo.world ∅ false (Return Demo.segments) "X")))
                (OllamaGenerate
                   (Summarizer.ollama_request "mistral" "Hello world"
                      (Some 50%Z)))
                "mistral" _ _ _).
  - vm_compute. do 7 right. left.
  - reflexivity.
  - reflexivity.
Defined.

(** *** Flags that are empty *)

Lemma given_given (flag : option string) : given (given flag) = given flag.
Proof. by destruct flag as [[|c s]|]. Qed.

Lemma parse_languages_given (languages : option string) :
  parse_languages (given languages) = parse_languages languages.
Proof. by destruct languages as [[|c s]|]. Qed.

Lemma model_kwargs_given (model : option string) :
  model_kwargs (given model) = model_kwargs model.
Proof. by destruct model as [[|c s]|]. Qed.

Lemma or_str_given (flag : option string) (b : M string) :
  Summarizer.or_str (given flag) b = Summarizer.or_str flag b.
Proof. by destruct flag as [[|c s]|]. Qed.

Lemma summarize_given (p : Summarizer.LLMProvider) (text : string)
    (max_length : option Z) (w : World) :
  Summarizer.summarize p text (given_length max_length) w
  = Summarizer.summarize p text max_length w.
Proof.
  destruct max_length as [n|]; [|done]. simpl.
  destruct (n =? 0)%Z eqn:Hn; [|done].
  apply Z.eqb_eq in Hn as ->. by destruct p.
Qed.

Lemma summarize_text_given (text : string) (provider : option string)
    (max_length : option Z) (kwargs : gmap string string) (w : World) :
  Summarizer.summarize_text text (given provider) (given_length max_length)
    kwargs w
  = Summarizer.summarize_text text provider max_length kwargs w.
Proof.
  assert (Summarizer.get_provider (given provider) kwargs
          = Summarizer.get_provider provider kwargs) as E.
  { unfold Summarizer.get_provider, Summarizer.resolve_provider_name.
    by rewrite or_str_given. }
  unfold Summarizer.summarize_text, bind. rewrite E.
  destruct (Summarizer.get_provider provider kwargs w) as [t [p | e]];
    [|done].
  by rewrite summarize_given.
Qed.

(** X18. For both commands a flag given as the empty string is a flag
    not given, and a [max_length] of [0] is no [max_length]: the run is the
    same, call for call. *)
Theorem cli_flags_given (url : string) (provider model : option string)
    (max_length : option Z) (languages output_file : option string)
    (h : Host) (w : World) :
  summarize url provider model max_length languages output_file h w
  = summarize url (given provider) (given model) (given_length max_length)
      (given languages) (given output_file) h w
  ∧ transcript url languages output_file h w
    = transcript url (given languages) (given output_file) h w.
Proof.
  split.
  - rewrite !cli_summarize_run.
    rewrite parse_languages_given, or_str_given, model_kwargs_given,
      given_given.
    destruct (Transcript.get_transcript_text url (parse_languages languages)
                (loaded h w)) as [t [tr | e]]; [|done].
    cbv zeta. by rewrite summarize_text_given.
  - rewrite !cli_transcript_run.
    by rewrite parse_languages_given, given_given.
Qed.

End CliProps.
